(** * GR4J rainfall-runoff model: embedding of [src/gr4j_model.py]

    The Python module defines the class [GR4J] (constructor, [run],
    [_compute_unit_hydrographs]) and the function [calculate_nse]; the
    scripts [validate_model.py], [calibrate_model.py] and [process_data.py]
    prepare its input and score its output.  They
    are embedded here as Rocq functions over the real numbers: a Python or
    NumPy float is read as the real number it denotes, so rounding is not
    part of the model.  One-dimensional NumPy arrays are lists of reals.
    Python exceptions are returned in an error monad; the two quotients of
    [calculate_nse], which NumPy evaluates to [inf] or [nan] when the
    divisor is zero, return an extended value.  Where a result of
    [calculate_nse] turns on rounding or underflow, the module [B64]
    evaluates the same function on binary64 numbers. *)

From Stdlib Require Import Reals Lra Lia List ZArith Sorted.
From Stdlib Require Floats.PrimFloat.
Import ListNotations.
Open Scope R_scope.

Set Implicit Arguments.

(** ** Exceptions *)

Inductive exn : Type :=
| IndexError          (* subscript out of range *)
| ValueError          (* negative dimension, shapes that do not broadcast *)
| ZeroDivisionError.  (* division of Python numbers by zero *)

Inductive result (A : Type) : Type :=
| Ok (a : A)
| Raise (e : exn).

Arguments Ok {A} a.
Arguments Raise {A} e.

Definition bind {A B : Type} (m : result A) (k : A -> result B) : result B :=
  match m with
  | Ok a => k a
  | Raise e => Raise e
  end.

Notation "x <- m ;; k" := (bind m (fun x => k))
  (at level 61, m at next level, right associativity).
Notation "' p <- m ;; k" := (bind m (fun p => k))
  (at level 61, p pattern, m at next level, right associativity).

Definition succeeds {A : Type} (m : result A) : Prop := exists a, m = Ok a.
Definition fails {A : Type} (m : result A) : Prop := exists e, m = Raise e.

(** ** Scalars *)

(** [x ** y] for a float exponent [y > 0] or a base [x > 0].  A zero base
    with a positive exponent is 0; the source only raises a positive base
    to the negative exponent [-0.25], and guards the one place where a
    negative base could reach a fractional exponent ([ratio > 0]). *)
Definition fpow (x y : R) : R :=
  if Rlt_dec 0 x then Rpower x y else 0.

(** A NumPy float64 result that may be infinite or not a number. *)
Inductive float64 : Type :=
| Fin (r : R)
| PosInf
| NegInf
| NaN.

(** ** NumPy primitives on one-dimensional arrays *)

Module Np.

(** [np.zeros(n)]: a negative dimension is a [ValueError]. *)
Definition zeros (n : Z) : result (list R) :=
  if (n <? 0)%Z then Raise ValueError else Ok (repeat 0 (Z.to_nat n)).

(** [a[t]] for [t >= 0]. *)
Definition getitem (a : list R) (t : nat) : result R :=
  match nth_error a t with
  | Some x => Ok x
  | None => Raise IndexError
  end.

Fixpoint update (a : list R) (t : nat) (v : R) : list R :=
  match a, t with
  | [], _ => []
  | _ :: a', O => v :: a'
  | x :: a', S t' => x :: update a' t' v
  end.

(** [a[t] = v] for [t >= 0]. *)
Definition setitem (a : list R) (t : nat) (v : R) : result (list R) :=
  if (t <? length a)%nat then Ok (update a t v) else Raise IndexError.

(** [np.roll(a, 1)]: the last element moves to the front. *)
Definition roll1 (a : list R) : list R :=
  match a with
  | [] => []
  | _ :: _ => last a 0 :: removelast a
  end.

(** [np.sum(a)]. *)
Definition sum (a : list R) : R := fold_right Rplus 0 a.

(** [np.mean(a)]; the mean of an empty array (nan in NumPy) is only ever
    subtracted from the same empty array in this program. *)
Definition mean (a : list R) : R := sum a / INR (length a).

Fixpoint map2 (f : R -> R -> R) (a b : list R) : list R :=
  match a, b with
  | x :: a', y :: b' => f x y :: map2 f a' b'
  | _, _ => []
  end.

(** Elementwise binary operation with broadcasting of a length-1 array. *)
Definition binop (f : R -> R -> R) (a b : list R) : result (list R) :=
  if (length a =? length b)%nat then Ok (map2 f a b)
  else match a, b with
       | [x], _ => Ok (map (f x) b)
       | _, [y] => Ok (map (fun x => f x y) a)
       | _, _ => Raise ValueError
       end.

(** [np.clip(x, lo, hi) = minimum(maximum(x, lo), hi)]. *)
Definition clip (x lo hi : R) : R := Rmin (Rmax x lo) hi.

(** [a[1:] = a[1:] - a[:-1]]: the right-hand side is an array of its
    own, computed from the old contents, before the slice is assigned. *)
Definition diff_tail (a : list R) : list R :=
  match a with
  | [] => []
  | x :: a' => x :: map2 Rminus a' (removelast a)
  end.

(** [x / y] on float64 scalars: no exception, [inf] or [nan] at [y = 0]. *)
Definition true_divide (x y : R) : float64 :=
  if Req_dec_T y 0 then
    (if Req_dec_T x 0 then NaN
     else if Rlt_dec 0 x then PosInf else NegInf)
  else Fin (x / y).

(** [x - q] for a finite [x]. *)
Definition rsub (x : R) (q : float64) : float64 :=
  match q with
  | Fin r => Fin (x - r)
  | PosInf => NegInf
  | NegInf => PosInf
  | NaN => NaN
  end.

End Np.

(** ** The class [GR4J] *)

Module GR4J.

(** The attributes set by [__init__]. *)
Record t : Type := mk { X1 : R; X2 : R; X3 : R; X4 : R }.

(** [__init__(self, X1=350, X2=0, X3=90, X4=1.7)]: four assignments. *)
Definition init (x1 x2 x3 x4 : R) : result t :=
  Ok {| X1 := x1; X2 := x2; X3 := x3; X4 := x4 |}.

Definition default : t := {| X1 := 350; X2 := 0; X3 := 90; X4 := 1.7 |}.

(** The parameter sets the specification calls valid. *)
Definition valid (self : t) : Prop := 0 < X1 self /\ 0 < X3 self /\ 0 < X4 self.

(** *** [_compute_unit_hydrographs] *)

(** The body of [for t in range(nUH1)]; [t] is below the length of the
    array, so the assignment cannot raise. *)
Definition UH1_assign (x4 : R) (UH1 : list R) (t : nat) : list R :=
  if Rlt_dec (INR t) x4 then
    Np.update UH1 t (fpow ((INR t + 1) / x4) 2.5)
  else UH1.

(** The body of [for t in range(nUH2)]. *)
Definition UH2_assign (x4 : R) (UH2 : list R) (t : nat) : list R :=
  if Rlt_dec (INR t) x4 then
    Np.update UH2 t (0.5 * fpow ((INR t + 1) / x4) 2.5)
  else if Rlt_dec (INR t) (2 * x4) then
    let ratio := 2 - (INR t + 1) / x4 in
    if Rgt_dec ratio 0 then Np.update UH2 t (1 - 0.5 * fpow ratio 2.5)
    else Np.update UH2 t 1
  else UH2.

(** [a = np.zeros(n)] followed by [for t in range(n): assign]. *)
Definition fill (n : Z) (assign : list R -> nat -> list R) : result (list R) :=
  a <- Np.zeros n ;;
  Ok (fold_left assign (seq 0 (Z.to_nat n)) a).

Definition normalize (n : Z) (a : list R) : list R :=
  if (n >? 1)%Z then Np.diff_tail a else a.

Definition _compute_unit_hydrographs (self : t) : result (list R * list R) :=
  let nUH1 := Zceil (X4 self) in
  UH1 <- fill nUH1 (UH1_assign (X4 self)) ;;
  let UH1 := normalize nUH1 UH1 in
  let nUH2 := Zceil (2 * X4 self) in
  UH2 <- fill nUH2 (UH2_assign (X4 self)) ;;
  let UH2 := normalize nUH2 UH2 in
  Ok (UH1, UH2).

(** *** [run] *)

(** The local variables of [run] that live across iterations. *)
Record state : Type := mkstate {
  S : R;
  R_ : R;
  UH1_stores : list R;
  UH2_stores : list R;
  Q : list R
}.

(** Lines 51-82: production store, percolation and routing input. *)
Record production : Type := mkprod {
  Pn : R; En : R; Ps : R; Es : R; perc : R; S' : R; Pr : R
}.

Definition production_store (self : t) (S0 p e : R) : production :=
  let '(Pn, En, Ps, Es) :=
    if Rge_dec p e then
      let Pn := p - e in
      let capacity_ratio := S0 / X1 self in
      let Ps := X1 self * (1 - capacity_ratio ^ 2) * tanh (Pn / X1 self) in
      let Ps := Ps / (1 + capacity_ratio * tanh (Pn / X1 self)) in
      (Pn, 0, Ps, 0)
    else
      let En := e - p in
      let capacity_ratio := S0 / X1 self in
      let Es := S0 * (2 - capacity_ratio) * tanh (En / X1 self) in
      let Es := Es / (1 + (1 - capacity_ratio) * tanh (En / X1 self)) in
      (0, En, 0, Es) in
  let S1 := S0 - Es + Ps in
  let S1 := Np.clip S1 0 (X1 self) in
  let perc_ratio := S1 / X1 self in
  let perc := S1 * (1 - fpow (1 + (perc_ratio / 2.25) ^ 4) (-0.25)) in
  let S1 := S1 - perc in
  let Pr := perc + (p - Ps) in
  {| Pn := Pn; En := En; Ps := Ps; Es := Es; perc := perc; S' := S1; Pr := Pr |}.

(** One delay line: [stores = np.roll(stores, 1); stores[0] = v;
    np.sum(stores * UH)]. *)
Definition route (stores UH : list R) (v : R) : result (list R * R) :=
  stores <- Np.setitem (Np.roll1 stores) 0 v ;;
  prod <- Np.binop Rmult stores UH ;;
  Ok (stores, Np.sum prod).

(** The body of [for t in range(n)]. *)
Definition body (self : t) (UH1 UH2 precip evap : list R) (t : nat)
    (st : state) : result state :=
  p <- Np.getitem precip t ;;
  e <- Np.getitem evap t ;;
  let pr := production_store self (S st) p e in
  let Pr9 := 0.9 * Pr pr in
  let Pr1 := 0.1 * Pr pr in
  '(UH1_stores, Q9) <- route (UH1_stores st) UH1 Pr9 ;;
  '(UH2_stores, Q1) <- route (UH2_stores st) UH2 Pr1 ;;
  let F := X2 self * fpow (R_ st / X3 self) 3.5 in
  let R1 := Rmax 0 (R_ st + Q9 + F) in
  let routing_ratio := R1 / X3 self in
  let Qr := R1 * (1 - fpow (1 + (routing_ratio / 2.25) ^ 4) (-0.25)) in
  let R1 := R1 - Qr in
  let Qd := Rmax 0 (Qr + Q1) in
  Q <- Np.setitem (Q st) t Qd ;;
  Ok {| S := S' pr; R_ := R1; UH1_stores := UH1_stores;
        UH2_stores := UH2_stores; Q := Q |}.

Fixpoint loop (self : t) (UH1 UH2 precip evap : list R) (ts : list nat)
    (st : state) : result state :=
  match ts with
  | [] => Ok st
  | t :: ts' =>
      st' <- body self UH1 UH2 precip evap t st ;;
      loop self UH1 UH2 precip evap ts' st'
  end.

(** Lines 33-47: everything [run] does before the loop. *)
Definition setup (self : t) (precip : list R)
    : result (list R * list R * state) :=
  let n := length precip in
  let S := X1 self * 0.5 in
  let R_ := X3 self * 0.5 in
  Q <- Np.zeros (Z.of_nat n) ;;
  '(UH1, UH2) <- _compute_unit_hydrographs self ;;
  UH1_stores <- Np.zeros (Z.of_nat (length UH1)) ;;
  UH2_stores <- Np.zeros (Z.of_nat (length UH2)) ;;
  Ok (UH1, UH2, {| S := S; R_ := R_; UH1_stores := UH1_stores;
                   UH2_stores := UH2_stores; Q := Q |}).

(** The locals after the first [k] iterations of the loop. *)
Definition run_steps (self : t) (precip evap : list R) (k : nat)
    : result state :=
  '(UH1, UH2, st) <- setup self precip ;;
  loop self UH1 UH2 precip evap (seq 0 k) st.

(** [run] as a method: the object after the call, and what the call
    returns or raises.  No statement of [run] assigns to [self]. *)
Definition run (self : t) (precip evap : list R) : t * result (list R) :=
  (self, st <- run_steps self precip evap (length precip) ;; Ok (Q st)).

End GR4J.

(** ** [calculate_nse] *)

Definition square (a : list R) : list R := map (fun x => x ^ 2) a.

Definition calculate_nse (observed simulated : list R) : result float64 :=
  let obs_mean := Np.mean observed in
  d <- Np.binop Rminus observed simulated ;;
  let numerator := Np.sum (square d) in
  let denominator := Np.sum (square (map (fun o => o - obs_mean) observed)) in
  let nse := Np.rsub 1 (Np.true_divide numerator denominator) in
  Ok nse.

(** ** [calculate_nse] on binary64 numbers

    The same function with the arithmetic of the machine: every operation
    is the IEEE 754 binary64 operation, so that rounding and underflow
    show.  [x ** 2] is the product [x * x]. *)

Module B64.

Import PrimFloat.

(** [np.sum(a)]: NumPy starts from the first element and adds to it the
    sum of the others, which for fewer than eight of them is taken from
    left to right, starting from 0.  (Longer arrays are added up in
    blocks; this definition is not used on them.) *)
Definition sum (a : list PrimFloat.float) : PrimFloat.float :=
  match a with
  | [] => 0%float
  | x :: rest => PrimFloat.add x (fold_left PrimFloat.add rest 0%float)
  end.

(** The length of an array as a float. *)
Fixpoint of_nat (n : nat) : PrimFloat.float :=
  match n with
  | O => 0%float
  | Datatypes.S n' => PrimFloat.add (of_nat n') 1%float
  end.

(** [np.mean(a)]: nan for an empty array. *)
Definition mean (a : list PrimFloat.float) : PrimFloat.float :=
  PrimFloat.div (sum a) (of_nat (length a)).

Fixpoint map2 (f : PrimFloat.float -> PrimFloat.float -> PrimFloat.float) (a b : list PrimFloat.float) : list PrimFloat.float :=
  match a, b with
  | x :: a', y :: b' => f x y :: map2 f a' b'
  | _, _ => []
  end.

(** Elementwise binary operation with broadcasting of a length-1 array. *)
Definition binop (f : PrimFloat.float -> PrimFloat.float -> PrimFloat.float) (a b : list PrimFloat.float)
    : result (list PrimFloat.float) :=
  if (length a =? length b)%nat then Ok (map2 f a b)
  else match a, b with
       | [x], _ => Ok (map (f x) b)
       | _, [y] => Ok (map (fun x => f x y) a)
       | _, _ => Raise ValueError
       end.

Definition square (a : list PrimFloat.float) : list PrimFloat.float :=
  map (fun x => PrimFloat.mul x x) a.

Definition calculate_nse (observed simulated : list PrimFloat.float) : result PrimFloat.float :=
  let obs_mean := mean observed in
  d <- binop PrimFloat.sub observed simulated ;;
  let numerator := sum (square d) in
  let denominator :=
    sum (square (map (fun o => PrimFloat.sub o obs_mean) observed)) in
  let nse := PrimFloat.sub 1%float (PrimFloat.div numerator denominator) in
  Ok nse.

End B64.

(** ** [run] as a method of an object

    A method body takes the object before the call to the object after
    it and the outcome of the call, so that a method that assigned to an
    attribute of [self] would show.  The locals of [run] are not part
    of the object. *)

Module Obj.

Definition method (A : Type) : Type := GR4J.t -> GR4J.t * result A.

Definition ret {A : Type} (a : A) : method A := fun self => (self, Ok a).

(** A computation that does not involve the object. *)
Definition lift {A : Type} (r : result A) : method A := fun self => (self, r).

(** [self.X1] and the like: a read of an attribute. *)
Definition attr (f : GR4J.t -> R) : method R := fun self => (self, Ok (f self)).

(** Statements that read attributes of [self] and assign none. *)
Definition reads {A : Type} (f : GR4J.t -> result A) : method A :=
  fun self => (self, f self).

Definition mbind {A B : Type} (m : method A) (k : A -> method B) : method B :=
  fun self =>
    let '(self', r) := m self in
    match r with
    | Ok a => k a self'
    | Raise e => (self', Raise e)
    end.

(** [self._compute_unit_hydrographs()]. *)
Definition _compute_unit_hydrographs : method (list R * list R) :=
  reads GR4J._compute_unit_hydrographs.

(** The body of [for t in range(n)], lines 50-110. *)
Definition body (UH1 UH2 precip evap : list R) (t : nat) (st : GR4J.state)
    : method GR4J.state :=
  reads (fun self => GR4J.body self UH1 UH2 precip evap t st).

Fixpoint loop (UH1 UH2 precip evap : list R) (ts : list nat)
    (st : GR4J.state) : method GR4J.state :=
  match ts with
  | [] => ret st
  | t :: ts' =>
      mbind (body UH1 UH2 precip evap t st)
            (fun st' => loop UH1 UH2 precip evap ts' st')
  end.

(** [run(self, precip, evap)], lines 33-112. *)
Definition run (precip evap : list R) : method (list R) :=
  let n := length precip in
  mbind (attr GR4J.X1) (fun X1 =>
  let S := X1 * 0.5 in
  mbind (attr GR4J.X3) (fun X3 =>
  let R_ := X3 * 0.5 in
  mbind (lift (Np.zeros (Z.of_nat n))) (fun Q =>
  mbind _compute_unit_hydrographs (fun UH =>
  let '(UH1, UH2) := UH in
  mbind (lift (Np.zeros (Z.of_nat (length UH1)))) (fun UH1_stores =>
  mbind (lift (Np.zeros (Z.of_nat (length UH2)))) (fun UH2_stores =>
  mbind (loop UH1 UH2 precip evap (seq 0 n)
           {| GR4J.S := S; GR4J.R_ := R_; GR4J.UH1_stores := UH1_stores;
              GR4J.UH2_stores := UH2_stores; GR4J.Q := Q |}) (fun st =>
  ret (GR4J.Q st)))))))).

End Obj.

(** What a call of [run] returns when its loop starts from the production
    store at half of X1, the routing store at half of X3, empty delay
    lines and an output array of zeros. *)
Definition run_from_fresh_state (self : GR4J.t) (precip evap : list R)
    : result (list R) :=
  '(UH1, UH2) <- GR4J._compute_unit_hydrographs self ;;
  st <- GR4J.loop self UH1 UH2 precip evap (seq 0 (length precip))
          {| GR4J.S := GR4J.X1 self * 0.5;
             GR4J.R_ := GR4J.X3 self * 0.5;
             GR4J.UH1_stores := repeat 0 (length UH1);
             GR4J.UH2_stores := repeat 0 (length UH2);
             GR4J.Q := repeat 0 (length precip) |} ;;
  Ok (GR4J.Q st).

(** ** The scripts that drive the model *)

(** [np.mean(a)] as a float64 scalar: nan for an empty array. *)
Definition mean64 (a : list R) : float64 :=
  match a with
  | [] => NaN
  | _ :: _ => Fin (Np.mean a)
  end.

(** [np.sqrt(q)] on a float64 scalar. *)
Definition sqrt64 (q : float64) : float64 :=
  match q with
  | Fin r => if Rlt_dec r 0 then NaN else Fin (sqrt r)
  | PosInf => PosInf
  | NegInf => NaN
  | NaN => NaN
  end.


(** A row of [calibration_data.csv] or [validation_data.csv], with the
    columns the scripts read. *)
Record row : Type := mkrow {
  streamflow_cfs : R;
  precipitation_mm : R;
  temperature_c : R
}.

(** [evap = 0.0023 * (temp + 17.8) * np.sqrt(np.abs(temp - (-5))) * 2.5]
    followed by [evap = np.maximum(evap, 0)], as in [gr4j_model.py]
    (lines 170-171), [calibrate_model.py] and [validate_model.py]. *)
Definition potential_evapotranspiration (temp : list R) : list R :=
  let evap :=
    map (fun T => 0.0023 * (T + 17.8) * sqrt (Rabs (T - (-5))) * 2.5) temp in
  map (fun x => Rmax x 0) evap.

Definition basin_area_km2 : R := 2000.

Definition cfs_to_mm : R := 86400 / (basin_area_km2 * 1e6) * 0.0283168 * 1000.

(** [calculate_nse] on columns taken from a table.  Pandas reads a table
    without rows into columns of dtype object; [np.mean] of such an empty
    column divides the Python integer 0 by 0, which raises. *)
Definition calculate_nse_of_table (df : list row)
    (observed simulated : list R) : result float64 :=
  match df with
  | [] => Raise ZeroDivisionError
  | _ :: _ => calculate_nse observed simulated
  end.

(** [validate_model.py], lines 27-44. *)
Module Validate.

(** [rmse = np.sqrt(np.mean((obs_flow - sim_flow)**2))]. *)
Definition rmse (obs_flow sim_flow : list R) : result float64 :=
  d <- Np.binop Rminus obs_flow sim_flow ;;
  Ok (sqrt64 (mean64 (square d))).

(** [bias = np.mean(sim_flow - obs_flow)]. *)
Definition bias (obs_flow sim_flow : list R) : result float64 :=
  d <- Np.binop Rminus sim_flow obs_flow ;;
  Ok (mean64 d).

Record report : Type := mkreport {
  nse : float64;
  rmse_ : float64;
  bias_ : float64;
  simulated : list R
}.

(** From the calibrated parameters and the validation rows to the three
    metrics and the simulated series. *)
Definition script (X1 X2 X3 X4 : R) (df_val : list row) : result report :=
  let precip := map precipitation_mm df_val in
  let temp := map temperature_c df_val in
  let evap := potential_evapotranspiration temp in
  let obs_flow := map (fun r => streamflow_cfs r * cfs_to_mm) df_val in
  model <- GR4J.init X1 X2 X3 X4 ;;
  sim_flow <- snd (GR4J.run model precip evap) ;;
  nse <- calculate_nse_of_table df_val obs_flow sim_flow ;;
  rmse <- rmse obs_flow sim_flow ;;
  bias <- bias obs_flow sim_flow ;;
  Ok {| nse := nse; rmse_ := rmse; bias_ := bias; simulated := sim_flow |}.

End Validate.

(** [calibrate_model.py], lines 14-42. *)
Module Calibrate.




End Calibrate.

(** ** [process_data.py]

    The raw table has one row per day and no empty cell (it is the file
    [download_data.py] writes); a date is the number of the day, counted
    from 2005-01-01.  A rolling mean is nan ([None]) until its window
    holds seven values. *)

Module ProcessData.

Record raw : Type := mkraw {
  date : Z;
  streamflow_cfs : R;
  precipitation_mm : R;
  temperature_c : R
}.

Record processed : Type := mkprocessed {
  base : raw;
  precip_7day : option R;
  temp_7day : option R
}.

(** The window of [rolling(7)] that ends at index [i]. *)
Definition window (xs : list R) (i : nat) : list R :=
  firstn 7 (skipn (i - 6) xs).

(** [column.rolling(7).mean()]. *)
Definition rolling_mean (xs : list R) : list (option R) :=
  map (fun i => if (i <? 6)%nat then None
                else Some (Np.sum (window xs i) / 7))
      (seq 0 (length xs)).

(** The two assignments [df['precip_7day'] = ...], [df['temp_7day'] = ...]. *)
Definition add_features (df : list raw) : list processed :=
  let p7 := rolling_mean (map precipitation_mm df) in
  let t7 := rolling_mean (map temperature_c df) in
  map (fun x => {| base := fst x;
                   precip_7day := fst (snd x);
                   temp_7day := snd (snd x) |})
      (combine df (combine p7 t7)).

(** [df.dropna()]. *)
Definition dropna (df : list processed) : list processed :=
  filter (fun r => match precip_7day r, temp_7day r with
                   | Some _, Some _ => true
                   | _, _ => false
                   end) df.

(** ['2012-01-01'], 2556 days after 2005-01-01. *)
Definition split_date : Z := 2556.

(** [df[df.index < split_date]] and [df[df.index >= split_date]]. *)
Definition split (df : list processed) : list processed * list processed :=
  (filter (fun r => (date (base r) <? split_date)%Z) df,
   filter (fun r => (date (base r) >=? split_date)%Z) df).

(** The three tables the script saves: complete, calibration, validation. *)
Definition script (df : list raw)
    : list processed * list processed * list processed :=
  let df := dropna (add_features df) in
  let '(df_cal, df_val) := split df in
  (df, df_cal, df_val).

End ProcessData.

(** ** Predicates used in the statements *)

(** What holds of the locals of [run] between two iterations, for the
    kernels [UH1], [UH2] and [n = len(precip)]. *)
Record run_invariant (self : GR4J.t) (UH1 UH2 : list R) (n : nat)
    (st : GR4J.state) : Prop := {
  inv_S : 0 <= GR4J.S st <= GR4J.X1 self;
  inv_R : 0 <= GR4J.R_ st;
  inv_UH1 : length (GR4J.UH1_stores st) = length UH1;
  inv_UH2 : length (GR4J.UH2_stores st) = length UH2;
  inv_Qlen : length (GR4J.Q st) = n;
  inv_Q : Forall (fun q => 0 <= q) (GR4J.Q st)
}.

(** The entry the first loop of [_compute_unit_hydrographs] leaves at
    index [t]: the value it assigns, or the 0 the array started with. *)
Definition UH1_cumulative (x4 : R) (t : nat) : R :=
  if Rlt_dec (INR t) x4 then fpow ((INR t + 1) / x4) 2.5 else 0.

(** The same for the second loop. *)
Definition UH2_cumulative (x4 : R) (t : nat) : R :=
  if Rlt_dec (INR t) x4 then 0.5 * fpow ((INR t + 1) / x4) 2.5
  else if Rlt_dec (INR t) (2 * x4) then
    let ratio := 2 - (INR t + 1) / x4 in
    if Rgt_dec ratio 0 then 1 - 0.5 * fpow ratio 2.5 else 1
  else 0.

(** Two sets of locals that agree except for the output array, of which
    the second holds the first [k] entries of the first. *)
Definition same_up_to (k : nat) (st st' : GR4J.state) : Prop :=
  GR4J.S st' = GR4J.S st /\
  GR4J.R_ st' = GR4J.R_ st /\
  GR4J.UH1_stores st' = GR4J.UH1_stores st /\
  GR4J.UH2_stores st' = GR4J.UH2_stores st /\
  GR4J.Q st' = firstn k (GR4J.Q st).

(** The indices a loop may visit without leaving the three arrays. *)
Definition in_range (precip evap : list R) (n : nat) (ts : list nat) : Prop :=
  Forall (fun t => t < length precip /\ t < length evap /\ t < n)%nat ts.


(** * Properties *)

(** ** Array primitives *)

Lemma zeros_of_nat (n : nat) : Np.zeros (Z.of_nat n) = Ok (repeat 0 n).
Proof.
  unfold Np.zeros.
  destruct (Z.ltb_spec (Z.of_nat n) 0) as [Hneg | _]; [lia |].
  now rewrite Nat2Z.id.
Qed.

Lemma zeros_nonneg (n : Z) :
  (0 <= n)%Z -> Np.zeros n = Ok (repeat 0 (Z.to_nat n)).
Proof.
  intros Hn. unfold Np.zeros.
  destruct (Z.ltb_spec n 0) as [Hneg | _]; [lia | reflexivity].
Qed.

Lemma zeros_negative (n : Z) : (n < 0)%Z -> Np.zeros n = Raise ValueError.
Proof.
  intros Hn. unfold Np.zeros.
  destruct (Z.ltb_spec n 0) as [_ | Hpos]; [reflexivity | lia].
Qed.

Lemma length_update (a : list R) (t : nat) (v : R) :
  length (Np.update a t v) = length a.
Proof.
  revert t; induction a as [| x a IH]; intros [| t]; simpl; auto.
Qed.

Lemma Forall_update (P : R -> Prop) (a : list R) (t : nat) (v : R) :
  Forall P a -> P v -> Forall P (Np.update a t v).
Proof.
  intros Ha Hv; revert t.
  induction Ha as [| x a Hx Ha IH]; intros [| t]; simpl; auto.
Qed.

Lemma length_map2 (f : R -> R -> R) (a b : list R) :
  length (Np.map2 f a b) = Nat.min (length a) (length b).
Proof.
  revert b; induction a as [| x a IH]; intros [| y b]; simpl; auto.
Qed.

Lemma length_removelast (a : list R) :
  length (removelast a) = Nat.pred (length a).
Proof.
  induction a as [| x a IH]; [reflexivity |].
  destruct a as [| y a]; [reflexivity |].
  change (removelast (x :: y :: a)) with (x :: removelast (y :: a)).
  cbn [length]. cbn [length] in IH. rewrite IH. reflexivity.
Qed.

Lemma length_roll1 (a : list R) : length (Np.roll1 a) = length a.
Proof.
  destruct a as [| x a]; [reflexivity |].
  unfold Np.roll1. cbn [length]. now rewrite length_removelast.
Qed.

Lemma length_diff_tail (a : list R) : length (Np.diff_tail a) = length a.
Proof.
  destruct a as [| x a]; [reflexivity |].
  unfold Np.diff_tail. cbn [length].
  rewrite length_map2, length_removelast. cbn [length]. f_equal. lia.
Qed.

(** The first differences of an array telescope to its last entry. *)
Lemma sum_diff_tail (a : list R) : Np.sum (Np.diff_tail a) = last a 0.
Proof.
  destruct a as [| x a]; [reflexivity |].
  revert x; induction a as [| y a IH]; intros x.
  - simpl. lra.
  - specialize (IH y).
    change (Np.diff_tail (x :: y :: a))
      with (x :: (y - x) :: Np.map2 Rminus a (removelast (y :: a))).
    change (Np.diff_tail (y :: a))
      with (y :: Np.map2 Rminus a (removelast (y :: a))) in IH.
    change (last (x :: y :: a) 0) with (last (y :: a) 0).
    rewrite <- IH. simpl. lra.
Qed.

Lemma last_map_seq (f : nat -> R) (n : nat) :
  last (map f (seq 0 (Datatypes.S n))) 0 = f n.
Proof.
  rewrite seq_S, map_app. simpl. now rewrite last_last.
Qed.

(** ** The power operator *)

Lemma fpow_pos (x y : R) : 0 < x -> fpow x y = Rpower x y.
Proof.
  intros Hx. unfold fpow. destruct (Rlt_dec 0 x); [reflexivity | contradiction].
Qed.

Lemma fpow_nonneg (x y : R) : 0 <= fpow x y.
Proof.
  unfold fpow. destruct (Rlt_dec 0 x); [| lra].
  unfold Rpower. left. apply exp_pos.
Qed.

Lemma fpow_ge_base (x y : R) : 1 <= x -> 1 <= y -> x <= fpow x y.
Proof.
  intros Hx Hy. rewrite fpow_pos by lra.
  rewrite <- (Rpower_1 x) at 1 by lra.
  now apply Rle_Rpower.
Qed.

(** [b ** (-0.25)] lies in (0, 1] for a base [b >= 1]. *)
Lemma fpow_neg_quarter (b : R) : 1 <= b -> 0 < fpow b (-0.25) <= 1.
Proof.
  intros Hb. rewrite fpow_pos by lra. unfold Rpower. split.
  - apply exp_pos.
  - rewrite <- exp_0.
    assert (Hln : 0 <= ln b).
    { rewrite <- ln_1. destruct Hb as [Hb | Hb].
      - left. apply ln_increasing; lra.
      - rewrite <- Hb. lra. }
    destruct (Req_dec (-0.25 * ln b) 0) as [-> | Hne]; [lra |].
    left. apply exp_increasing. nra.
Qed.

(** The factor [1 - (1 + (r / 2.25)**4)**(-0.25)] of both outflow laws. *)
Lemma outflow_fraction (r : R) :
  0 <= 1 - fpow (1 + (r / 2.25) ^ 4) (-0.25) < 1.
Proof.
  assert (H4 : 0 <= (r / 2.25) ^ 4).
  { replace ((r / 2.25) ^ 4) with (((r / 2.25) ^ 2) ^ 2) by ring.
    apply pow2_ge_0. }
  destruct (fpow_neg_quarter (b := 1 + (r / 2.25) ^ 4)); lra.
Qed.

Lemma fpow_ge_sqr (x : R) : 1 <= x -> x ^ 2 <= fpow x 2.5.
Proof.
  intros Hx. rewrite fpow_pos by lra.
  rewrite <- (@Rpower_pow 2 x) by lra.
  apply Rle_Rpower; [assumption | simpl; lra].
Qed.

Lemma fpow_one (y : R) : fpow 1 y = 1.
Proof.
  rewrite fpow_pos by lra. unfold Rpower. rewrite ln_1, Rmult_0_r. apply exp_0.
Qed.

(** ** The unit hydrograph builder *)

Lemma update_app (pre rest : list R) (x v : R) :
  Np.update (pre ++ x :: rest) (length pre) v = pre ++ v :: rest.
Proof.
  induction pre as [| y pre IH]; [reflexivity |].
  cbn [app length Np.update]. now rewrite IH.
Qed.

(** A loop whose body turns the zero at index [t] into [g t] and touches
    nothing else fills a zero array with the values of [g]. *)
Lemma fold_assign (assign : list R -> nat -> list R) (g : nat -> R) :
  (forall pre rest,
     assign (pre ++ 0 :: rest) (length pre) = pre ++ g (length pre) :: rest) ->
  forall m pre,
    fold_left assign (seq (length pre) m) (pre ++ repeat 0 m)
    = pre ++ map g (seq (length pre) m).
Proof.
  intros Hassign. induction m as [| m IH]; intros pre; [reflexivity |].
  cbn [seq repeat fold_left map]. rewrite Hassign.
  replace (pre ++ g (length pre) :: repeat 0 m)
    with ((pre ++ [g (length pre)]) ++ repeat 0 m)
    by (rewrite <- app_assoc; reflexivity).
  replace (Datatypes.S (length pre)) with (length (pre ++ [g (length pre)]))
    by (rewrite length_app; simpl; lia).
  rewrite IH, <- app_assoc. reflexivity.
Qed.

Lemma UH1_assign_cumulative (x4 : R) (pre rest : list R) :
  GR4J.UH1_assign x4 (pre ++ 0 :: rest) (length pre)
  = pre ++ UH1_cumulative x4 (length pre) :: rest.
Proof.
  unfold GR4J.UH1_assign, UH1_cumulative.
  destruct (Rlt_dec (INR (length pre)) x4);
    [apply update_app | reflexivity].
Qed.

Lemma UH2_assign_cumulative (x4 : R) (pre rest : list R) :
  GR4J.UH2_assign x4 (pre ++ 0 :: rest) (length pre)
  = pre ++ UH2_cumulative x4 (length pre) :: rest.
Proof.
  unfold GR4J.UH2_assign, UH2_cumulative.
  destruct (Rlt_dec (INR (length pre)) x4); [apply update_app |].
  destruct (Rlt_dec (INR (length pre)) (2 * x4)); [| reflexivity].
  cbv zeta. destruct (Rgt_dec _ 0); apply update_app.
Qed.

Lemma fill_nonneg (n : Z) (assign : list R -> nat -> list R) (g : nat -> R) :
  (forall pre rest,
     assign (pre ++ 0 :: rest) (length pre) = pre ++ g (length pre) :: rest) ->
  (0 <= n)%Z -> GR4J.fill n assign = Ok (map g (seq 0 (Z.to_nat n))).
Proof.
  intros Hassign Hn. unfold GR4J.fill. rewrite zeros_nonneg by assumption.
  cbn [bind]. f_equal.
  exact (@fold_assign assign g Hassign (Z.to_nat n) []).
Qed.

Lemma fill_negative (n : Z) (assign : list R -> nat -> list R) :
  (n < 0)%Z -> GR4J.fill n assign = Raise ValueError.
Proof.
  intros Hn. unfold GR4J.fill. now rewrite zeros_negative.
Qed.

Lemma length_normalize (n : Z) (a : list R) :
  length (GR4J.normalize n a) = length a.
Proof.
  unfold GR4J.normalize. destruct (n >? 1)%Z; [apply length_diff_tail | reflexivity].
Qed.

Lemma Zceil_pos (x : R) : 0 < x -> (1 <= Zceil x)%Z.
Proof.
  intros Hx. destruct (Zceil_bound x) as [_ Hub].
  assert (H : (0 < Zceil x)%Z) by (apply lt_IZR; lra). lia.
Qed.

Lemma INR_to_nat_pred (n : Z) :
  (1 <= n)%Z -> INR (Nat.pred (Z.to_nat n)) = IZR n - 1.
Proof.
  intros Hn. rewrite INR_IZR_INZ.
  replace (Z.of_nat (Nat.pred (Z.to_nat n))) with (n - 1)%Z by lia.
  now rewrite minus_IZR.
Qed.

(** After normalisation the ordinates add up to the last cumulative value. *)
Lemma sum_normalize (n : Z) (f : nat -> R) :
  (1 <= n)%Z ->
  Np.sum (GR4J.normalize n (map f (seq 0 (Z.to_nat n))))
  = f (Nat.pred (Z.to_nat n)).
Proof.
  intros Hn. unfold GR4J.normalize.
  destruct (Z.to_nat n) as [| m] eqn:Hm; [lia |].
  destruct (Z.gtb_spec n 1) as [Hgt | Hle].
  - rewrite sum_diff_tail. apply last_map_seq.
  - assert (m = 0%nat) by lia. subst m. simpl. lra.
Qed.

Lemma compute_unit_hydrographs_valid (self : GR4J.t) :
  0 < GR4J.X4 self ->
  GR4J._compute_unit_hydrographs self =
  Ok (GR4J.normalize (Zceil (GR4J.X4 self))
        (map (UH1_cumulative (GR4J.X4 self))
           (seq 0 (Z.to_nat (Zceil (GR4J.X4 self))))),
      GR4J.normalize (Zceil (2 * GR4J.X4 self))
        (map (UH2_cumulative (GR4J.X4 self))
           (seq 0 (Z.to_nat (Zceil (2 * GR4J.X4 self)))))).
Proof.
  intros Hx4. unfold GR4J._compute_unit_hydrographs.
  assert (H1 : (1 <= Zceil (GR4J.X4 self))%Z) by (apply Zceil_pos; lra).
  assert (H2 : (1 <= Zceil (2 * GR4J.X4 self))%Z) by (apply Zceil_pos; lra).
  rewrite (@fill_nonneg _ _ (UH1_cumulative (GR4J.X4 self)))
    by (try apply UH1_assign_cumulative; lia).
  rewrite (@fill_nonneg _ _ (UH2_cumulative (GR4J.X4 self)))
    by (try apply UH2_assign_cumulative; lia).
  reflexivity.
Qed.

(** The kernels have the lengths [ceil(X4)] and [ceil(2 * X4)]. *)
Lemma unit_hydrograph_lengths (self : GR4J.t) :
  0 < GR4J.X4 self ->
  exists UH1 UH2,
    GR4J._compute_unit_hydrographs self = Ok (UH1, UH2) /\
    Z.of_nat (length UH1) = Zceil (GR4J.X4 self) /\
    Z.of_nat (length UH2) = Zceil (2 * GR4J.X4 self).
Proof.
  intros Hx4. rewrite compute_unit_hydrographs_valid by assumption.
  do 2 eexists. split; [reflexivity |].
  rewrite !length_normalize, !length_map, !length_seq.
  assert (H1 : (1 <= Zceil (GR4J.X4 self))%Z) by (apply Zceil_pos; lra).
  assert (H2 : (1 <= Zceil (2 * GR4J.X4 self))%Z) by (apply Zceil_pos; lra).
  lia.
Qed.

(** The ordinates of UH1 add up to [(ceil(X4) / X4) ** 2.5]: the test
    [t < X4] holds at every index below [ceil(X4)], the last one included. *)
Lemma UH1_sum (self : GR4J.t) :
  0 < GR4J.X4 self ->
  exists UH1 UH2,
    GR4J._compute_unit_hydrographs self = Ok (UH1, UH2) /\
    Np.sum UH1 = fpow (IZR (Zceil (GR4J.X4 self)) / GR4J.X4 self) 2.5.
Proof.
  intros Hx4. rewrite compute_unit_hydrographs_valid by assumption.
  do 2 eexists. split; [reflexivity |].
  assert (H1 : (1 <= Zceil (GR4J.X4 self))%Z) by (apply Zceil_pos; lra).
  rewrite sum_normalize by assumption.
  unfold UH1_cumulative. rewrite INR_to_nat_pred by assumption.
  destruct (Zceil_bound (GR4J.X4 self)) as [Hlb _].
  destruct (Rlt_dec (IZR (Zceil (GR4J.X4 self)) - 1) (GR4J.X4 self))
    as [_ | Hn]; [| contradiction].
  f_equal. f_equal. lra.
Qed.

(** For [X4 > 0.5] the last index of UH2 is at least [X4] and its ratio is
    not positive, so the last cumulative value, and the sum, is 1. *)
Lemma UH2_sum_one (self : GR4J.t) :
  0.5 < GR4J.X4 self ->
  exists UH1 UH2,
    GR4J._compute_unit_hydrographs self = Ok (UH1, UH2) /\ Np.sum UH2 = 1.
Proof.
  intros Hx4. rewrite compute_unit_hydrographs_valid by lra.
  do 2 eexists. split; [reflexivity |].
  set (x4 := GR4J.X4 self) in *.
  assert (H2 : (2 <= Zceil (2 * x4))%Z).
  { destruct (Zceil_bound (2 * x4)) as [_ Hub].
    assert (H : (1 < Zceil (2 * x4))%Z) by (apply lt_IZR; lra). lia. }
  rewrite sum_normalize by lia.
  unfold UH2_cumulative. rewrite INR_to_nat_pred by lia.
  destruct (Zceil_bound (2 * x4)) as [Hlb Hub].
  assert (H2' : 2 <= IZR (Zceil (2 * x4))) by (apply IZR_le in H2; exact H2).
  destruct (Rlt_dec (IZR (Zceil (2 * x4)) - 1) x4) as [Hlt | _]; [lra |].
  destruct (Rlt_dec (IZR (Zceil (2 * x4)) - 1) (2 * x4)) as [_ | Hn]; [| lra].
  cbv zeta.
  destruct (Rgt_dec (2 - (IZR (Zceil (2 * x4)) - 1 + 1) / x4) 0) as [Hgt | _];
    [| reflexivity].
  exfalso.
  assert (Hr : 2 <= (IZR (Zceil (2 * x4)) - 1 + 1) / x4).
  { apply Rmult_le_reg_r with x4; [lra |].
    unfold Rdiv. rewrite Rmult_assoc, Rinv_l by lra. lra. }
  lra.
Qed.

(** At a whole number of days the last cumulative value of UH1 is
    [1 ** 2.5], and the ordinates add up to 1. *)
Lemma UH1_sum_one_integer (self : GR4J.t) (k : Z) :
  (1 <= k)%Z -> GR4J.X4 self = IZR k ->
  exists UH1 UH2,
    GR4J._compute_unit_hydrographs self = Ok (UH1, UH2) /\ Np.sum UH1 = 1.
Proof.
  intros Hk Hx4.
  assert (Hpos : 0 < GR4J.X4 self)
    by (rewrite Hx4; apply IZR_lt; lia).
  destruct (@UH1_sum self Hpos) as (UH1 & UH2 & Hrun & Hsum).
  exists UH1, UH2. split; [exact Hrun |].
  rewrite Hsum, Hx4.
  rewrite (@Zceil_eq k (IZR k)) by lra.
  unfold Rdiv. rewrite Rinv_r by (rewrite <- Hx4; lra).
  apply fpow_one.
Qed.

Lemma Zceil_default : Zceil (GR4J.X4 GR4J.default) = 2%Z.
Proof. apply Zceil_eq. simpl. lra. Qed.

(** C1, at the default time base [X4 = 1.7]: the builder returns a UH1
    whose ordinates add up to [(2 / 1.7) ** 2.5], which exceeds 1 by more
    than the tolerance 1e-6; the claimed unit sum does not hold for UH1 at
    a time base that is not an integer. *)
Theorem UH1_sum_default_exceeds_one :
  exists UH1 UH2,
    GR4J._compute_unit_hydrographs GR4J.default = Ok (UH1, UH2) /\
    Np.sum UH1 = fpow (2 / 1.7) 2.5 /\
    Np.sum UH1 - 1 > 1e-6.
Proof.
  destruct (@UH1_sum GR4J.default) as (UH1 & UH2 & Hrun & Hsum);
    [simpl; lra |].
  exists UH1, UH2. split; [exact Hrun |].
  rewrite Zceil_default in Hsum. simpl GR4J.X4 in Hsum.
  split; [exact Hsum |].
  rewrite Hsum.
  assert (H := @fpow_ge_base (2 / 1.7) 2.5). lra.
Qed.

(** C4, at [X4 = 1.1]: UH1 has length 2 = ceil(1.1) and UH2 has length
    3 = ceil(2.2), but the last ordinate of UH2 is negative: index 1 is
    below [X4], so its cumulative value is [0.5 * (2 / 1.1) ** 2.5 > 1],
    and the next cumulative value is 1. *)
Theorem UH2_negative_ordinate :
  exists UH1 UH2,
    GR4J._compute_unit_hydrographs
      {| GR4J.X1 := 350; GR4J.X2 := 0; GR4J.X3 := 90; GR4J.X4 := 1.1 |}
    = Ok (UH1, UH2) /\
    length UH1 = 2%nat /\ length UH2 = 3%nat /\
    nth 2 UH2 0 = 1 - 0.5 * fpow (2 / 1.1) 2.5 /\
    nth 2 UH2 0 < 0.
Proof.
  rewrite compute_unit_hydrographs_valid by (simpl; lra).
  simpl GR4J.X4.
  rewrite (@Zceil_eq 2 1.1) by (simpl; lra).
  rewrite (@Zceil_eq 3 (2 * 1.1)) by (simpl; lra).
  do 2 eexists. split; [reflexivity |].
  split; [reflexivity |]. split; [reflexivity |].
  assert (Hc2 : UH2_cumulative 1.1 2 = 1).
  { unfold UH2_cumulative. simpl INR.
    destruct (Rlt_dec (1 + 1) 1.1) as [Hlt | _]; [lra |].
    destruct (Rlt_dec (1 + 1) (2 * 1.1)) as [_ | Hn]; [| lra].
    cbv zeta. destruct (Rgt_dec (2 - (1 + 1 + 1) / 1.1) 0) as [Hgt | _];
      [lra | reflexivity]. }
  assert (Hc1 : UH2_cumulative 1.1 1 = 0.5 * fpow (2 / 1.1) 2.5).
  { unfold UH2_cumulative. simpl INR.
    destruct (Rlt_dec 1 1.1) as [_ | Hn]; [| lra].
    replace ((1 + 1) / 1.1) with (2 / 1.1) by lra. reflexivity. }
  assert (Hnth : nth 2 (GR4J.normalize 3
                   (map (UH2_cumulative 1.1) (seq 0 (Z.to_nat 3)))) 0
                 = 1 - 0.5 * fpow (2 / 1.1) 2.5).
  { change (UH2_cumulative 1.1 2 - UH2_cumulative 1.1 1
            = 1 - 0.5 * fpow (2 / 1.1) 2.5).
    now rewrite Hc1, Hc2. }
  split; [exact Hnth |].
  rewrite Hnth.
  assert (H := @fpow_ge_sqr (2 / 1.1)). lra.
Qed.

(** ** One step of the simulation *)

Lemma clip_bounds (x hi : R) : 0 <= hi -> 0 <= Np.clip x 0 hi <= hi.
Proof.
  intros Hhi. unfold Np.clip, Rmin, Rmax.
  destruct (Rle_dec x 0); destruct (Rle_dec _ hi); lra.
Qed.

(** The production store ends every step within [0, X1]. *)
Lemma production_store_bounds (self : GR4J.t) (S0 p e : R) :
  0 <= GR4J.X1 self ->
  0 <= GR4J.S' (GR4J.production_store self S0 p e) <= GR4J.X1 self.
Proof.
  intros HX1. unfold GR4J.production_store.
  destruct (Rge_dec p e); cbv zeta; cbn [GR4J.S'];
    match goal with
    | |- 0 <= ?c - ?c * (1 - fpow (1 + (?r / 2.25) ^ 4) (-0.25)) <= _ =>
        let Hc := fresh in let Hf := fresh in
        assert (Hf := outflow_fraction r);
        assert (Hc : 0 <= c <= GR4J.X1 self) by (apply clip_bounds; exact HX1);
        nra
    end.
Qed.

Lemma binop_same_length (f : R -> R -> R) (a b : list R) :
  length a = length b -> Np.binop f a b = Ok (Np.map2 f a b).
Proof.
  intros Hlen. unfold Np.binop. now rewrite Hlen, Nat.eqb_refl.
Qed.

Lemma setitem_in_range (a : list R) (t : nat) (v : R) :
  (t < length a)%nat -> Np.setitem a t v = Ok (Np.update a t v).
Proof.
  intros Ht. unfold Np.setitem.
  destruct (Nat.ltb_spec t (length a)); [reflexivity | lia].
Qed.

Lemma getitem_in_range (a : list R) (t : nat) :
  (t < length a)%nat -> exists x, Np.getitem a t = Ok x.
Proof.
  intros Ht. unfold Np.getitem.
  destruct (nth_error a t) as [x |] eqn:Hx; [now exists x |].
  apply nth_error_None in Hx. lia.
Qed.

Lemma getitem_out_of_range (a : list R) (t : nat) :
  (length a <= t)%nat -> Np.getitem a t = Raise IndexError.
Proof.
  intros Ht. unfold Np.getitem.
  apply nth_error_None in Ht. now rewrite Ht.
Qed.

(** A delay line as long as its non-empty kernel takes the new inflow at
    index 0 and keeps its length. *)
Lemma route_ok (stores UH : list R) (v : R) :
  length stores = length UH -> (0 < length UH)%nat ->
  exists stores',
    GR4J.route stores UH v = Ok (stores', Np.sum (Np.map2 Rmult stores' UH)) /\
    length stores' = length UH /\
    nth 0 stores' 0 = v.
Proof.
  intros Hlen Hpos. unfold GR4J.route.
  rewrite setitem_in_range by (rewrite length_roll1; lia).
  cbn [bind].
  assert (Hlen' : length (Np.update (Np.roll1 stores) 0 v) = length UH)
    by now rewrite length_update, length_roll1.
  rewrite binop_same_length by exact Hlen'. cbn [bind].
  eexists. split; [reflexivity |]. split; [exact Hlen' |].
  destruct stores as [| x stores]; [simpl in Hlen; lia | reflexivity].
Qed.

(** An iteration whose index is inside the arrays raises nothing and
    re-establishes the invariant. *)
Lemma body_ok (self : GR4J.t) (UH1 UH2 precip evap : list R) (n t : nat)
    (st : GR4J.state) :
  0 <= GR4J.X1 self ->
  (0 < length UH1)%nat -> (0 < length UH2)%nat ->
  (t < length precip)%nat -> (t < length evap)%nat -> (t < n)%nat ->
  length (GR4J.UH1_stores st) = length UH1 ->
  length (GR4J.UH2_stores st) = length UH2 ->
  length (GR4J.Q st) = n ->
  Forall (fun q => 0 <= q) (GR4J.Q st) ->
  exists st',
    GR4J.body self UH1 UH2 precip evap t st = Ok st' /\
    run_invariant self UH1 UH2 n st'.
Proof.
  intros HX1 H1 H2 Hp He Ht Hs1 Hs2 HQn HQ.
  unfold GR4J.body.
  destruct (getitem_in_range precip Hp) as [p ->].
  destruct (getitem_in_range evap He) as [e ->].
  cbn [bind]. cbv zeta.
  set (pr := GR4J.production_store self (GR4J.S st) p e).
  destruct (route_ok (GR4J.UH1_stores st) UH1 (0.9 * GR4J.Pr pr) Hs1 H1)
    as (s1 & -> & Hl1 & _).
  cbn [bind].
  destruct (route_ok (GR4J.UH2_stores st) UH2 (0.1 * GR4J.Pr pr) Hs2 H2)
    as (s2 & -> & Hl2 & _).
  cbn [bind].
  rewrite setitem_in_range by lia. cbn [bind].
  eexists. split; [reflexivity |].
  constructor; cbn [GR4J.S GR4J.R_ GR4J.UH1_stores GR4J.UH2_stores GR4J.Q].
  - apply production_store_bounds; exact HX1.
  - match goal with
    | |- 0 <= ?c - ?c * (1 - fpow (1 + (?r / 2.25) ^ 4) (-0.25)) =>
        assert (Hf := outflow_fraction r);
        assert (Hc : 0 <= c) by apply Rmax_l;
        nra
    end.
  - exact Hl1.
  - exact Hl2.
  - now rewrite length_update.
  - apply Forall_update; [exact HQ | apply Rmax_l].
Qed.

(** ** The loop *)

Lemma loop_app (self : GR4J.t) (UH1 UH2 precip evap : list R)
    (ts1 ts2 : list nat) (st : GR4J.state) :
  GR4J.loop self UH1 UH2 precip evap (ts1 ++ ts2) st =
  (st' <- GR4J.loop self UH1 UH2 precip evap ts1 st ;;
   GR4J.loop self UH1 UH2 precip evap ts2 st').
Proof.
  revert st; induction ts1 as [| t ts1 IH]; intros st; [reflexivity |].
  cbn [app GR4J.loop].
  destruct (GR4J.body self UH1 UH2 precip evap t st) as [st1 | err];
    cbn [bind]; [apply IH | reflexivity].
Qed.

Lemma loop_ok (self : GR4J.t) (UH1 UH2 precip evap : list R) (n : nat)
    (ts : list nat) (st : GR4J.state) :
  0 <= GR4J.X1 self ->
  (0 < length UH1)%nat -> (0 < length UH2)%nat ->
  in_range precip evap n ts ->
  run_invariant self UH1 UH2 n st ->
  exists st',
    GR4J.loop self UH1 UH2 precip evap ts st = Ok st' /\
    run_invariant self UH1 UH2 n st'.
Proof.
  intros HX1 H1 H2 Hts; revert st.
  induction Hts as [| t ts (Hp & He & Ht) Hts IH]; intros st Hinv.
  - exists st. split; [reflexivity | exact Hinv].
  - destruct Hinv as [_ _ Hs1 Hs2 HQn HQ].
    destruct (@body_ok self UH1 UH2 precip evap n t st)
      as (st1 & Hbody & Hinv1); try assumption.
    cbn [GR4J.loop]. rewrite Hbody. cbn [bind]. now apply IH.
Qed.

(** The loop reads [evap] only at the indices it visits. *)
Lemma loop_ext_evap (self : GR4J.t) (UH1 UH2 precip evap evap' : list R)
    (ts : list nat) (st : GR4J.state) :
  (forall t, In t ts -> nth_error evap t = nth_error evap' t) ->
  GR4J.loop self UH1 UH2 precip evap ts st =
  GR4J.loop self UH1 UH2 precip evap' ts st.
Proof.
  revert st; induction ts as [| t ts IH]; intros st Hext; [reflexivity |].
  cbn [GR4J.loop].
  assert (Hbody : GR4J.body self UH1 UH2 precip evap t st =
                  GR4J.body self UH1 UH2 precip evap' t st).
  { unfold GR4J.body, Np.getitem. rewrite (Hext t) by now left. reflexivity. }
  rewrite Hbody.
  destruct (GR4J.body self UH1 UH2 precip evap' t st) as [st1 | err];
    cbn [bind]; [| reflexivity].
  apply IH. intros u Hu. apply Hext. now right.
Qed.

Lemma in_range_seq (precip evap : list R) (n k : nat) :
  (k <= length precip)%nat -> (k <= length evap)%nat -> (k <= n)%nat ->
  in_range precip evap n (seq 0 k).
Proof.
  intros Hp He Hn. apply Forall_forall. intros t Ht.
  apply in_seq in Ht. lia.
Qed.

(** ** Before the loop *)

Lemma setup_ok (self : GR4J.t) (precip : list R) :
  0 < GR4J.X4 self ->
  exists UH1 UH2,
    GR4J._compute_unit_hydrographs self = Ok (UH1, UH2) /\
    (0 < length UH1)%nat /\ (0 < length UH2)%nat /\
    GR4J.setup self precip =
    Ok (UH1, UH2,
        {| GR4J.S := GR4J.X1 self * 0.5;
           GR4J.R_ := GR4J.X3 self * 0.5;
           GR4J.UH1_stores := repeat 0 (length UH1);
           GR4J.UH2_stores := repeat 0 (length UH2);
           GR4J.Q := repeat 0 (length precip) |}).
Proof.
  intros Hx4.
  destruct (unit_hydrograph_lengths self Hx4) as (UH1 & UH2 & Hc & Hl1 & Hl2).
  exists UH1, UH2. split; [exact Hc |].
  assert (H1 : (1 <= Zceil (GR4J.X4 self))%Z) by (apply Zceil_pos; lra).
  assert (H2 : (1 <= Zceil (2 * GR4J.X4 self))%Z) by (apply Zceil_pos; lra).
  split; [lia |]. split; [lia |].
  unfold GR4J.setup. rewrite zeros_of_nat. cbn [bind].
  rewrite Hc. cbn [bind]. rewrite !zeros_of_nat. reflexivity.
Qed.

Lemma initial_invariant (self : GR4J.t) (UH1 UH2 : list R) (n : nat) :
  0 <= GR4J.X1 self -> 0 <= GR4J.X3 self ->
  run_invariant self UH1 UH2 n
    {| GR4J.S := GR4J.X1 self * 0.5;
       GR4J.R_ := GR4J.X3 self * 0.5;
       GR4J.UH1_stores := repeat 0 (length UH1);
       GR4J.UH2_stores := repeat 0 (length UH2);
       GR4J.Q := repeat 0 n |}.
Proof.
  intros HX1 HX3.
  constructor; cbn [GR4J.S GR4J.R_ GR4J.UH1_stores GR4J.UH2_stores GR4J.Q];
    try apply repeat_length; try lra.
  apply Forall_forall. intros q Hq. apply repeat_spec in Hq. lra.
Qed.

(** With valid parameters the first [k] iterations raise nothing, as long
    as both series have [k] entries, and leave the invariant in place. *)
Lemma run_steps_ok (self : GR4J.t) (precip evap : list R) (k : nat) :
  GR4J.valid self ->
  (k <= length precip)%nat -> (k <= length evap)%nat ->
  exists UH1 UH2 st,
    GR4J.run_steps self precip evap k = Ok st /\
    run_invariant self UH1 UH2 (length precip) st.
Proof.
  intros (HX1 & HX3 & HX4) Hp He.
  destruct (@setup_ok self precip HX4) as (UH1 & UH2 & _ & H1 & H2 & Hsetup).
  exists UH1, UH2. unfold GR4J.run_steps. rewrite Hsetup. cbn [bind].
  apply loop_ok; try assumption; try lra.
  - now apply in_range_seq.
  - apply initial_invariant; lra.
Qed.

(** The locals after [k] iterations are those [run] has at that point:
    the full loop is the first [k] iterations followed by the rest. *)
Lemma run_steps_prefix (self : GR4J.t) (precip evap : list R) (k n : nat) :
  (k <= n)%nat ->
  GR4J.run_steps self precip evap n =
  ('(UH1, UH2, _) <- GR4J.setup self precip ;;
   st <- GR4J.run_steps self precip evap k ;;
   GR4J.loop self UH1 UH2 precip evap (seq k (n - k)) st).
Proof.
  intros Hk. unfold GR4J.run_steps.
  destruct (GR4J.setup self precip) as [[[UH1 UH2] st0] | err];
    cbn [bind]; [| reflexivity].
  replace n with (k + (n - k))%nat at 1 by lia.
  rewrite seq_app, loop_app. reflexivity.
Qed.

(** ** The whole run *)

(** With valid parameters and at least as many evapotranspiration values
    as precipitation values, [run] returns one non-negative discharge per
    precipitation value. *)
Lemma run_returns (self : GR4J.t) (precip evap : list R) :
  GR4J.valid self ->
  (length precip <= length evap)%nat ->
  exists Qs,
    snd (GR4J.run self precip evap) = Ok Qs /\
    length Qs = length precip /\
    Forall (fun q => 0 <= q) Qs.
Proof.
  intros Hvalid Hlen.
  destruct (@run_steps_ok self precip evap (length precip) Hvalid)
    as (UH1 & UH2 & st & Hrun & Hinv); [lia | exact Hlen |].
  exists (GR4J.Q st). unfold GR4J.run. cbn [snd]. rewrite Hrun. cbn [bind].
  destruct Hinv as [_ _ _ _ HQn HQ]. auto.
Qed.

Lemma run_ext_evap (self : GR4J.t) (precip evap evap' : list R) :
  (forall t, (t < length precip)%nat -> nth_error evap t = nth_error evap' t) ->
  GR4J.run self precip evap = GR4J.run self precip evap'.
Proof.
  intros Hext. unfold GR4J.run, GR4J.run_steps. f_equal.
  destruct (GR4J.setup self precip) as [[[UH1 UH2] st0] | err];
    cbn [bind]; [| reflexivity].
  rewrite (@loop_ext_evap self UH1 UH2 precip evap evap'); [reflexivity |].
  intros t Ht. apply in_seq in Ht. apply Hext. lia.
Qed.

Lemma nth_error_same_prefix (n : nat) (a b : list R) (t : nat) :
  firstn n a = firstn n b -> (t < n)%nat -> nth_error a t = nth_error b t.
Proof.
  intros Heq Ht.
  assert (Ha := nth_error_firstn n a t).
  assert (Hb := nth_error_firstn n b t).
  destruct (Nat.ltb_spec t n); [| lia].
  rewrite <- Ha, <- Hb, Heq. reflexivity.
Qed.

(** C2: with valid parameters and forcing series of equal length, after
    every simulated step the production store lies in [0, X1] and the
    routing store is not negative, and [run] returns a discharge series
    without a negative value. *)
Theorem run_store_bounds_nonneg_discharge
    (self : GR4J.t) (precip evap : list R) :
  GR4J.valid self ->
  length precip = length evap ->
  (forall k, (k <= length precip)%nat ->
     exists st,
       GR4J.run_steps self precip evap k = Ok st /\
       0 <= GR4J.S st <= GR4J.X1 self /\
       0 <= GR4J.R_ st) /\
  (exists Qs,
     snd (GR4J.run self precip evap) = Ok Qs /\
     length Qs = length precip /\
     Forall (fun q => 0 <= q) Qs).
Proof.
  intros Hvalid Hlen. split.
  - intros k Hk.
    destruct (@run_steps_ok self precip evap k Hvalid)
      as (UH1 & UH2 & st & Hrun & Hinv); [lia | lia |].
    exists st. destruct Hinv as [HS HR _ _ _ _]. auto.
  - apply run_returns; [exact Hvalid | lia].
Qed.

Lemma valid_default : GR4J.valid GR4J.default.
Proof. unfold GR4J.valid. simpl. lra. Qed.

Lemma run_store_bounds_nonneg_discharge_witness :
  GR4J.valid GR4J.default /\
  length [10; 0; 0; 0; 0] = length [0; 0; 0; 0; 0] /\
  (forall k, (k <= 5)%nat ->
     exists st,
       GR4J.run_steps GR4J.default [10; 0; 0; 0; 0] [0; 0; 0; 0; 0] k = Ok st /\
       0 <= GR4J.S st <= 350 /\
       0 <= GR4J.R_ st) /\
  (exists Qs,
     snd (GR4J.run GR4J.default [10; 0; 0; 0; 0] [0; 0; 0; 0; 0]) = Ok Qs /\
     length Qs = 5%nat /\
     Forall (fun q => 0 <= q) Qs).
Proof.
  split; [exact valid_default |]. split; [reflexivity |].
  exact (@run_store_bounds_nonneg_discharge GR4J.default
           [10; 0; 0; 0; 0] [0; 0; 0; 0; 0] valid_default eq_refl).
Defined.

(** C10, as the code has it: when the evapotranspiration series is
    strictly longer than the precipitation series, [run] with valid
    parameters (X1 > 0, X3 > 0, X4 > 0) raises nothing and
    returns exactly one discharge per precipitation value; the result is
    the same for the series cut to the length of the precipitation and for
    every other series with the same first entries. *)
Theorem run_ignores_extra_evap (self : GR4J.t) (precip evap : list R) :
  GR4J.valid self ->
  (length precip < length evap)%nat ->
  exists Qs,
    snd (GR4J.run self precip evap) = Ok Qs /\
    length Qs = length precip /\
    snd (GR4J.run self precip (firstn (length precip) evap)) = Ok Qs /\
    (forall evap',
       firstn (length precip) evap' = firstn (length precip) evap ->
       snd (GR4J.run self precip evap') = Ok Qs).
Proof.
  intros Hvalid Hlen.
  destruct (@run_returns self precip evap Hvalid) as (Qs & Hrun & HQn & _);
    [lia |].
  exists Qs. split; [exact Hrun |]. split; [exact HQn |].
  assert (Hsame : forall evap',
             firstn (length precip) evap' = firstn (length precip) evap ->
             snd (GR4J.run self precip evap') = Ok Qs).
  { intros evap' Hpre. rewrite <- Hrun. f_equal. apply run_ext_evap.
    intros t Ht. now apply nth_error_same_prefix with (length precip). }
  split; [| exact Hsame].
  apply Hsame. rewrite firstn_firstn. f_equal. lia.
Qed.

Lemma run_ignores_extra_evap_witness :
  GR4J.valid GR4J.default /\
  (length [10; 0] < length [1; 2; 3])%nat /\
  exists Qs,
    snd (GR4J.run GR4J.default [10; 0] [1; 2; 3]) = Ok Qs /\
    length Qs = 2%nat /\
    snd (GR4J.run GR4J.default [10; 0] [1; 2]) = Ok Qs /\
    (forall evap',
       firstn 2 evap' = [1; 2] ->
       snd (GR4J.run GR4J.default [10; 0] evap') = Ok Qs).
Proof.
  split; [exact valid_default |]. split; [simpl; lia |].
  exact (@run_ignores_extra_evap GR4J.default [10; 0] [1; 2; 3]
           valid_default (le_n 3)).
Defined.

(** C5, as the code has it: when the evapotranspiration series is shorter
    than the precipitation series, [run] (with valid parameters) fails, with
    the [IndexError] of the first day that has no evapotranspiration entry,
    and returns no discharge series. *)
Theorem run_shorter_evap_raises (self : GR4J.t) (precip evap : list R) :
  GR4J.valid self ->
  (length evap < length precip)%nat ->
  snd (GR4J.run self precip evap) = Raise IndexError.
Proof.
  intros Hvalid Hlen. unfold GR4J.run. cbn [snd].
  rewrite (@run_steps_prefix self precip evap (length evap) (length precip))
    by lia.
  destruct Hvalid as (HX1 & HX3 & HX4).
  destruct (@setup_ok self precip HX4) as (UH1 & UH2 & _ & _ & _ & Hsetup).
  rewrite Hsetup. cbn [bind].
  destruct (@run_steps_ok self precip evap (length evap))
    as (UH1' & UH2' & st & Hrun & _);
    [unfold GR4J.valid; auto | lia | lia |].
  rewrite Hrun. cbn [bind].
  destruct (length precip - length evap)%nat as [| j] eqn:Hj; [lia |].
  cbn [seq GR4J.loop]. unfold GR4J.body.
  destruct (@getitem_in_range precip (length evap) Hlen) as [p ->].
  rewrite getitem_out_of_range by lia. reflexivity.
Qed.

Lemma run_shorter_evap_raises_witness :
  GR4J.valid GR4J.default /\
  (length [1] < length [10; 0])%nat /\
  snd (GR4J.run GR4J.default [10; 0] [1]) = Raise IndexError.
Proof.
  split; [exact valid_default |]. split; [simpl; lia |].
  exact (@run_shorter_evap_raises GR4J.default [10; 0] [1]
           valid_default (le_n 2)).
Defined.

(** C5 fails as stated: the series [10] and [0; 0] differ in length, and
    [run] with the default parameters returns a discharge series. *)
Lemma run_unequal_lengths_returns :
  length [10] <> length [0; 0] /\
  ~ fails (snd (GR4J.run GR4J.default [10] [0; 0])) /\
  exists Qs,
    snd (GR4J.run GR4J.default [10] [0; 0]) = Ok Qs /\ length Qs = 1%nat.
Proof.
  destruct (@run_returns GR4J.default [10] [0; 0] valid_default)
    as (Qs & Hrun & HQn & _); [simpl; lia |].
  split; [simpl; lia |]. split.
  - intros [err Herr]. rewrite Hrun in Herr. discriminate.
  - exists Qs. auto.
Qed.

(** ** Parameters that are not valid *)

Lemma Zceil_negative (x : R) : x <= -1 -> (Zceil x < 0)%Z.
Proof.
  intros Hx. destruct (Zceil_bound x) as [Hlb _].
  apply lt_IZR. lra.
Qed.

Lemma Zceil_zero (x : R) : -1 < x <= 0 -> Zceil x = 0%Z.
Proof. intros Hx. apply Zceil_eq. simpl. lra. Qed.

Lemma compute_unit_hydrographs_raises (self : GR4J.t) :
  GR4J.X4 self <= -0.5 ->
  GR4J._compute_unit_hydrographs self = Raise ValueError.
Proof.
  intros Hx4. unfold GR4J._compute_unit_hydrographs.
  destruct (Rle_dec (GR4J.X4 self) (-1)) as [Hle | Hgt].
  - rewrite fill_negative by now apply Zceil_negative. reflexivity.
  - rewrite (@Zceil_zero (GR4J.X4 self)) by lra.
    rewrite (@fill_nonneg _ _ (UH1_cumulative (GR4J.X4 self)))
      by (try apply UH1_assign_cumulative; lia).
    cbn [bind].
    rewrite fill_negative by (apply Zceil_negative; lra). reflexivity.
Qed.

Lemma compute_unit_hydrographs_empty (self : GR4J.t) :
  -0.5 < GR4J.X4 self <= 0 ->
  GR4J._compute_unit_hydrographs self = Ok ([], []).
Proof.
  intros Hx4. unfold GR4J._compute_unit_hydrographs.
  rewrite (@Zceil_zero (GR4J.X4 self)) by lra.
  rewrite (@Zceil_zero (2 * GR4J.X4 self)) by lra.
  reflexivity.
Qed.

Lemma setup_succeeds (self : GR4J.t) (precip : list R) :
  -0.5 < GR4J.X4 self -> succeeds (GR4J.setup self precip).
Proof.
  intros Hx4. destruct (Rlt_dec 0 (GR4J.X4 self)) as [Hpos | Hneg].
  - destruct (@setup_ok self precip Hpos) as (UH1 & UH2 & _ & _ & _ & ->).
    eexists. reflexivity.
  - unfold GR4J.setup. rewrite zeros_of_nat. cbn [bind].
    rewrite compute_unit_hydrographs_empty by lra.
    eexists. reflexivity.
Qed.

(** [run] on two empty series only needs the setup to go through. *)
Lemma run_empty (self : GR4J.t) :
  -0.5 < GR4J.X4 self -> GR4J.run self [] [] = (self, Ok []).
Proof.
  intros Hx4. unfold GR4J.run, GR4J.run_steps. f_equal.
  destruct (Rlt_dec 0 (GR4J.X4 self)) as [Hpos | Hneg].
  - destruct (@setup_ok self [] Hpos) as (UH1 & UH2 & _ & _ & _ & ->).
    reflexivity.
  - unfold GR4J.setup. cbn [length].
    rewrite compute_unit_hydrographs_empty by lra. reflexivity.
Qed.

(** C6, as the code has it: the constructor accepts every parameter set
    and stores it unchanged, and neither X1 nor X3 is examined before the
    loop.  Of the sets that are not valid, only those with [X4 <= -0.5]
    fail before the first step, with the [ValueError] of allocating an
    array of negative length; for [-0.5 < X4 <= 0] the builder returns two
    empty kernels, and [run] on empty series returns the empty series. *)
Theorem invalid_parameters_not_rejected (x1 x2 x3 x4 : R) :
  let self := GR4J.mk x1 x2 x3 x4 in
  GR4J.init x1 x2 x3 x4 = Ok self /\
  (x4 <= -0.5 ->
     GR4J._compute_unit_hydrographs self = Raise ValueError /\
     forall precip, GR4J.setup self precip = Raise ValueError) /\
  (-0.5 < x4 <= 0 -> GR4J._compute_unit_hydrographs self = Ok ([], [])) /\
  (-0.5 < x4 ->
     (forall precip, succeeds (GR4J.setup self precip)) /\
     GR4J.run self [] [] = (self, Ok [])).
Proof.
  intros self. split; [reflexivity |].
  split; [| split].
  - intros Hx4.
    assert (Hraise : GR4J._compute_unit_hydrographs self = Raise ValueError)
      by (apply compute_unit_hydrographs_raises; exact Hx4).
    split; [exact Hraise |].
    intros precip. unfold GR4J.setup. rewrite zeros_of_nat. cbn [bind].
    rewrite Hraise. reflexivity.
  - intros Hx4. apply compute_unit_hydrographs_empty. exact Hx4.
  - intros Hx4. split.
    + intros precip. apply setup_succeeds. exact Hx4.
    + apply run_empty. exact Hx4.
Qed.

Lemma invalid_parameters_not_rejected_witness :
  GR4J.init (-1) 0 (-1) 0 = Ok (GR4J.mk (-1) 0 (-1) 0) /\
  GR4J._compute_unit_hydrographs (GR4J.mk (-1) 0 (-1) 0) = Ok ([], []) /\
  GR4J.run (GR4J.mk (-1) 0 (-1) 0) [] [] = (GR4J.mk (-1) 0 (-1) 0, Ok []) /\
  GR4J._compute_unit_hydrographs (GR4J.mk 350 0 90 (-2)) = Raise ValueError.
Proof.
  destruct (@invalid_parameters_not_rejected (-1) 0 (-1) 0)
    as (Hinit & _ & Hempty & Hrun).
  destruct (@invalid_parameters_not_rejected 350 0 90 (-2))
    as (_ & Hraise & _).
  split; [exact Hinit |].
  split; [apply Hempty; lra |].
  split; [apply Hrun; lra |].
  apply Hraise; lra.
Defined.

(** C6 fails as stated: with X1 = X3 = X4 = 0 the constructor returns a
    model, the unit hydrograph builder returns two empty kernels, and [run]
    on empty series returns the empty series; nothing fails. *)
Lemma nonpositive_parameters_accepted :
  let self := GR4J.mk 0 0 0 0 in
  (GR4J.X1 self <= 0 /\ GR4J.X3 self <= 0 /\ GR4J.X4 self <= 0) /\
  GR4J.init 0 0 0 0 = Ok self /\
  ~ fails (GR4J.init 0 0 0 0) /\
  ~ fails (GR4J._compute_unit_hydrographs self) /\
  ~ fails (snd (GR4J.run self [] [])).
Proof.
  intros self.
  assert (Hc : GR4J._compute_unit_hydrographs self = Ok ([], []))
    by (apply compute_unit_hydrographs_empty; simpl; lra).
  assert (Hr : GR4J.run self [] [] = (self, Ok []))
    by (apply run_empty; simpl; lra).
  split; [simpl; lra |]. split; [reflexivity |].
  repeat split; intros [err Herr].
  - discriminate.
  - rewrite Hc in Herr. discriminate.
  - rewrite Hr in Herr. discriminate.
Qed.

(** ** The locals before the first step *)

Lemma setup_initial_state (self : GR4J.t) (precip UH1 UH2 : list R)
    (st : GR4J.state) :
  GR4J.setup self precip = Ok (UH1, UH2, st) ->
  GR4J._compute_unit_hydrographs self = Ok (UH1, UH2) /\
  st = {| GR4J.S := GR4J.X1 self * 0.5;
          GR4J.R_ := GR4J.X3 self * 0.5;
          GR4J.UH1_stores := repeat 0 (length UH1);
          GR4J.UH2_stores := repeat 0 (length UH2);
          GR4J.Q := repeat 0 (length precip) |}.
Proof.
  unfold GR4J.setup. rewrite zeros_of_nat. cbn [bind].
  destruct (GR4J._compute_unit_hydrographs self) as [[U1 U2] | err];
    cbn [bind]; [| discriminate].
  rewrite !zeros_of_nat. cbn [bind].
  intros Heq. inversion Heq; subst. split; reflexivity.
Qed.

(** ** The routing input *)

Lemma route_head (stores UH : list R) (v : R) (stores' : list R) (q : R) :
  GR4J.route stores UH v = Ok (stores', q) -> nth 0 stores' 0 = v.
Proof.
  unfold GR4J.route, Np.setitem.
  destruct (Nat.ltb_spec 0 (length (Np.roll1 stores))) as [Hpos | Hn];
    cbn [bind]; [| discriminate].
  destruct (Np.binop Rmult (Np.update (Np.roll1 stores) 0 v) UH) as [prod | err];
    cbn [bind]; [| discriminate].
  intros Heq. inversion Heq; subst.
  destruct (Np.roll1 stores) as [| x s]; [simpl in Hpos; lia | reflexivity].
Qed.

(** C3: in every step the routing input is [Pr = perc + (precip[t] - Ps)]
    on both branches, with the raw precipitation of the day: on the
    evaporation-dominant branch [Ps = 0] and [Pr = perc + precip[t]], on the
    precipitation-dominant branch [Pr] exceeds [perc + (Pn - Ps)] by the
    evapotranspiration of the day; and 0.9 and 0.1 of this [Pr] are what a
    step puts at the front of the two delay lines. *)
Theorem routing_input_raw_precipitation
    (self : GR4J.t) (UH1 UH2 precip evap : list R) (t : nat)
    (st : GR4J.state) (p e : R) :
  let pr := GR4J.production_store self (GR4J.S st) p e in
  GR4J.Pr pr = GR4J.perc pr + (p - GR4J.Ps pr) /\
  (p < e ->
     GR4J.Ps pr = 0 /\ GR4J.Pn pr = 0 /\ GR4J.Pr pr = GR4J.perc pr + p) /\
  (p >= e ->
     GR4J.Pn pr = p - e /\
     GR4J.Pr pr = GR4J.perc pr + (GR4J.Pn pr - GR4J.Ps pr) + e) /\
  (Np.getitem precip t = Ok p -> Np.getitem evap t = Ok e ->
   forall st',
     GR4J.body self UH1 UH2 precip evap t st = Ok st' ->
     nth 0 (GR4J.UH1_stores st') 0 = 0.9 * GR4J.Pr pr /\
     nth 0 (GR4J.UH2_stores st') 0 = 0.1 * GR4J.Pr pr /\
     GR4J.S st' = GR4J.S' pr).
Proof.
  intros pr. repeat apply conj.
  - subst pr. unfold GR4J.production_store.
    destruct (Rge_dec p e); reflexivity.
  - intros Hlt. subst pr. unfold GR4J.production_store.
    destruct (Rge_dec p e) as [Hge | _]; [lra |].
    cbv zeta. cbn [GR4J.Ps GR4J.Pn GR4J.Pr GR4J.perc].
    repeat split; lra.
  - intros Hge. subst pr. unfold GR4J.production_store.
    destruct (Rge_dec p e) as [_ | Hn]; [| contradiction].
    cbv zeta. cbn [GR4J.Ps GR4J.Pn GR4J.Pr GR4J.perc].
    split; lra.
  - intros Hp He st'. unfold GR4J.body. rewrite Hp, He. cbn [bind].
    fold pr.
    destruct (GR4J.route (GR4J.UH1_stores st) UH1 (0.9 * GR4J.Pr pr))
      as [[s1 Q9] | err] eqn:Hr1; cbn [bind]; [| discriminate].
    destruct (GR4J.route (GR4J.UH2_stores st) UH2 (0.1 * GR4J.Pr pr))
      as [[s2 Q1] | err] eqn:Hr2; cbn [bind]; [| discriminate].
    match goal with
    | |- (Q <- ?m ;; _) = _ -> _ => destruct m as [Q' | err]
    end; cbn [bind]; [| discriminate].
    intros Heq. inversion Heq; subst st'.
    cbn [GR4J.UH1_stores GR4J.UH2_stores GR4J.S].
    apply route_head in Hr1. apply route_head in Hr2. auto.
Qed.

Lemma routing_input_raw_precipitation_witness :
  let st := GR4J.mkstate 175 45 [0] [0] [0] in
  let pr := GR4J.production_store GR4J.default 175 1 2 in
  GR4J.Ps pr = 0 /\
  GR4J.Pr pr = GR4J.perc pr + 1 /\
  exists st',
    GR4J.body GR4J.default [1] [1] [1] [2] 0 st = Ok st' /\
    nth 0 (GR4J.UH1_stores st') 0 = 0.9 * GR4J.Pr pr /\
    nth 0 (GR4J.UH2_stores st') 0 = 0.1 * GR4J.Pr pr.
Proof.
  intros st pr.
  destruct (@routing_input_raw_precipitation
              GR4J.default [1] [1] [1] [2] 0%nat st 1 2)
    as (_ & Hevap & _ & Hbody).
  destruct Hevap as (HPs & _ & HPr); [lra |].
  split; [exact HPs |]. split; [exact HPr |].
  destruct (@body_ok GR4J.default [1] [1] [1] [2] 1 0 st)
    as (st' & Hst' & _);
    try (simpl; lia); try reflexivity; try (simpl; lra).
  { subst st. cbn [GR4J.Q]. apply Forall_cons; [lra | apply Forall_nil]. }
  exists st'. split; [exact Hst' |].
  destruct (Hbody eq_refl eq_refl st' Hst') as (H1 & H2 & _).
  split; [exact H1 | exact H2].
Defined.

(** ** Nash-Sutcliffe efficiency *)

Lemma sum_square_cons (x : R) (a : list R) :
  Np.sum (square (x :: a)) = x ^ 2 + Np.sum (square a).
Proof. reflexivity. Qed.

Lemma sum_square_nonneg (a : list R) : 0 <= Np.sum (square a).
Proof.
  induction a as [| x a IH]; [simpl; lra |].
  rewrite sum_square_cons. assert (H := pow2_ge_0 x). lra.
Qed.


Lemma sum_square_all_zero (a : list R) :
  Forall (fun x => x = 0) a -> Np.sum (square a) = 0.
Proof.
  induction 1 as [| x a Hx Ha IH]; [reflexivity |].
  rewrite sum_square_cons, IH, Hx. ring.
Qed.

(** The residuals vanish exactly when the two series coincide. *)
Lemma residuals_zero_iff (a b : list R) :
  length a = length b ->
  (Forall (fun x => x = 0) (Np.map2 Rminus a b) <-> a = b).
Proof.
  revert b; induction a as [| x a IH]; intros [| y b] Hlen;
    try discriminate.
  - split; [reflexivity | constructor].
  - injection Hlen as Hlen. cbn [Np.map2]. split.
    + intros H. inversion H as [| ? ? Hxy Hab]; subst.
      f_equal; [lra | now apply IH].
    + intros Heq. injection Heq as -> ->.
      constructor; [lra | now apply IH].
Qed.







(** * Further properties of the unit hydrograph builder *)

Lemma fpow_mono (x y c : R) : 0 <= c -> 0 <= x <= y -> fpow x c <= fpow y c.
Proof.
  intros Hc [Hx Hxy]. unfold fpow at 1.
  destruct (Rlt_dec 0 x) as [Hpos | _]; [| apply fpow_nonneg].
  rewrite fpow_pos by lra. apply Rle_Rpower_l; lra.
Qed.

Lemma fpow_gt_one (x y : R) : 1 < x -> 1 <= y -> 1 < fpow x y.
Proof.
  intros Hx Hy. assert (H := @fpow_ge_base x y). lra.
Qed.

(** The normalised array written out: the first cumulative value, then
    the successive differences. *)
Lemma diff_tail_map_seq (c : nat -> R) (m k : nat) :
  Np.diff_tail (map c (seq k (Datatypes.S m)))
  = c k :: map (fun t => c (Datatypes.S t) - c t) (seq k m).
Proof.
  unfold Np.diff_tail. cbn [seq map]. f_equal.
  revert k; induction m as [| m IH]; intros k; [reflexivity |].
  change (seq (Datatypes.S k) (Datatypes.S m))
    with (Datatypes.S k :: seq (Datatypes.S (Datatypes.S k)) m).
  cbn [map].
  change (removelast (c k :: c (Datatypes.S k) ::
                      map c (seq (Datatypes.S (Datatypes.S k)) m)))
    with (c k :: removelast (c (Datatypes.S k) ::
                             map c (seq (Datatypes.S (Datatypes.S k)) m))).
  cbn [Np.map2 seq map]. f_equal. apply (IH (Datatypes.S k)).
Qed.

Lemma UH1_cumulative_mono (x4 : R) (t : nat) :
  0 < x4 -> INR (Datatypes.S t) < x4 ->
  0 <= UH1_cumulative x4 (Datatypes.S t) - UH1_cumulative x4 t.
Proof.
  intros Hx4 Ht. rewrite S_INR in Ht. unfold UH1_cumulative.
  rewrite S_INR.
  destruct (Rlt_dec (INR t + 1) x4) as [_ | Hn]; [| lra].
  destruct (Rlt_dec (INR t) x4) as [_ | Hn]; [| lra].
  assert (Hpos := pos_INR t).
  assert (Hinv : 0 < / x4) by now apply Rinv_0_lt_compat.
  assert (Hmono : fpow ((INR t + 1) / x4) 2.5 <= fpow ((INR t + 1 + 1) / x4) 2.5).
  { apply fpow_mono; [lra |]. unfold Rdiv. split; nra. }
  lra.
Qed.

(** X1: for every [X4 > 0] the two kernels have [ceil(X4)] and
    [ceil(2 * X4)] ordinates, at least one each, and UH2 is at least as
    long as UH1 and at most twice as long. *)
Theorem unit_hydrograph_kernel_lengths (self : GR4J.t) :
  0 < GR4J.X4 self ->
  exists UH1 UH2,
    GR4J._compute_unit_hydrographs self = Ok (UH1, UH2) /\
    Z.of_nat (length UH1) = Zceil (GR4J.X4 self) /\
    Z.of_nat (length UH2) = Zceil (2 * GR4J.X4 self) /\
    (1 <= length UH1 <= length UH2)%nat /\
    (length UH2 <= 2 * length UH1)%nat.
Proof.
  intros Hx4.
  destruct (unit_hydrograph_lengths self Hx4) as (UH1 & UH2 & Hc & Hl1 & Hl2).
  exists UH1, UH2. split; [exact Hc |]. split; [exact Hl1 |].
  split; [exact Hl2 |].
  assert (H1 : (1 <= Zceil (GR4J.X4 self))%Z) by (apply Zceil_pos; lra).
  assert (Hle : (Zceil (GR4J.X4 self) <= Zceil (2 * GR4J.X4 self))%Z)
    by (apply Zceil_le; lra).
  assert (Hle2 : (Zceil (2 * GR4J.X4 self) <= 2 * Zceil (GR4J.X4 self))%Z).
  { destruct (Zceil_bound (GR4J.X4 self)) as [_ Hub].
    destruct (Zceil_bound (2 * GR4J.X4 self)) as [Hlb _].
    assert (H : (Zceil (2 * GR4J.X4 self) - 1 < 2 * Zceil (GR4J.X4 self))%Z).
    { apply lt_IZR. rewrite minus_IZR, mult_IZR. lra. }
    lia. }
  lia.
Qed.

Lemma unit_hydrograph_kernel_lengths_witness :
  exists UH1 UH2,
    GR4J._compute_unit_hydrographs GR4J.default = Ok (UH1, UH2) /\
    length UH1 = 2%nat /\ length UH2 = 4%nat.
Proof.
  destruct (@unit_hydrograph_kernel_lengths GR4J.default)
    as (UH1 & UH2 & Hc & Hl1 & Hl2 & _); [simpl; lra |].
  exists UH1, UH2. split; [exact Hc |].
  rewrite Zceil_default in Hl1.
  rewrite (@Zceil_eq 4 (2 * GR4J.X4 GR4J.default)) in Hl2 by (simpl; lra).
  lia.
Defined.

(** X2: for every [X4 > 0] no ordinate of UH1 is negative. *)
Theorem UH1_ordinates_nonneg (self : GR4J.t) :
  0 < GR4J.X4 self ->
  exists UH1 UH2,
    GR4J._compute_unit_hydrographs self = Ok (UH1, UH2) /\
    Forall (fun o => 0 <= o) UH1.
Proof.
  intros Hx4. rewrite compute_unit_hydrographs_valid by assumption.
  do 2 eexists. split; [reflexivity |].
  set (x4 := GR4J.X4 self) in *.
  assert (H1 : (1 <= Zceil x4)%Z) by (apply Zceil_pos; lra).
  destruct (Zceil_bound x4) as [Hlb _].
  destruct (Z.to_nat (Zceil x4)) as [| m] eqn:Hm; [lia |].
  assert (HINR : INR m = IZR (Zceil x4) - 1).
  { rewrite <- (INR_to_nat_pred H1), Hm. reflexivity. }
  assert (Hfirst : 0 <= UH1_cumulative x4 0).
  { unfold UH1_cumulative. destruct (Rlt_dec (INR 0) x4);
      [apply fpow_nonneg | lra]. }
  unfold GR4J.normalize. destruct (Zceil x4 >? 1)%Z.
  - rewrite diff_tail_map_seq. constructor; [exact Hfirst |].
    apply Forall_forall. intros o Ho. apply in_map_iff in Ho.
    destruct Ho as (t & <- & Ht). apply in_seq in Ht.
    apply UH1_cumulative_mono; [exact Hx4 |].
    assert (Hle : INR (Datatypes.S t) <= INR m) by (apply le_INR; lia).
    lra.
  - apply Forall_forall. intros o Ho. apply in_map_iff in Ho.
    destruct Ho as (t & <- & Ht).
    unfold UH1_cumulative. destruct (Rlt_dec (INR t) x4);
      [apply fpow_nonneg | lra].
Qed.

Lemma UH1_ordinates_nonneg_witness :
  exists UH1 UH2,
    GR4J._compute_unit_hydrographs GR4J.default = Ok (UH1, UH2) /\
    Forall (fun o => 0 <= o) UH1.
Proof.
  apply (@UH1_ordinates_nonneg GR4J.default). simpl. lra.
Defined.

(** X3: for every [X4 > 0] the ordinates of UH1 add up to
    [(ceil(X4) / X4) ** 2.5]; the sum is never below 1, and it is 1 exactly
    when [X4] is a whole number. *)
Theorem UH1_sum_characterised (self : GR4J.t) :
  0 < GR4J.X4 self ->
  exists UH1 UH2,
    GR4J._compute_unit_hydrographs self = Ok (UH1, UH2) /\
    Np.sum UH1 = fpow (IZR (Zceil (GR4J.X4 self)) / GR4J.X4 self) 2.5 /\
    1 <= Np.sum UH1 /\
    (Np.sum UH1 = 1 <-> GR4J.X4 self = IZR (Zceil (GR4J.X4 self))).
Proof.
  intros Hx4.
  destruct (@UH1_sum self Hx4) as (UH1 & UH2 & Hc & Hsum).
  exists UH1, UH2. split; [exact Hc |]. split; [exact Hsum |].
  set (x4 := GR4J.X4 self) in *.
  destruct (Zceil_bound x4) as [_ Hub].
  assert (Hq : 1 <= IZR (Zceil x4) / x4).
  { apply Rmult_le_reg_r with x4; [exact Hx4 |].
    unfold Rdiv. rewrite Rmult_assoc, Rinv_l by lra. lra. }
  rewrite Hsum. split.
  - assert (H := @fpow_ge_base (IZR (Zceil x4) / x4) 2.5). lra.
  - split.
    + intros Hone. destruct Hub as [Hlt | Heq]; [| exact Heq].
      exfalso.
      assert (Hq' : 1 < IZR (Zceil x4) / x4).
      { apply Rmult_lt_reg_r with x4; [exact Hx4 |].
        unfold Rdiv. rewrite Rmult_assoc, Rinv_l by lra. lra. }
      assert (H := @fpow_gt_one (IZR (Zceil x4) / x4) 2.5 Hq'). lra.
    + intros Heq. rewrite <- Heq. unfold Rdiv. rewrite Rinv_r by lra.
      apply fpow_one.
Qed.

Lemma UH1_sum_characterised_witness :
  exists UH1 UH2,
    GR4J._compute_unit_hydrographs (GR4J.mk 350 0 90 2) = Ok (UH1, UH2) /\
    Np.sum UH1 = 1.
Proof.
  destruct (@UH1_sum_characterised (GR4J.mk 350 0 90 2))
    as (UH1 & UH2 & Hc & _ & _ & Hiff); [simpl; lra |].
  exists UH1, UH2. split; [exact Hc |].
  apply Hiff. simpl. rewrite (@Zceil_eq 2 2) by lra. reflexivity.
Defined.

(** X4: for every [X4 > 0.5] the ordinates of UH2 add up to 1; for
    [0 < X4 <= 0.5] UH2 is the single ordinate [0.5 * (1 / X4) ** 2.5],
    which is at least 2. *)
Theorem UH2_sum_characterised (self : GR4J.t) :
  0 < GR4J.X4 self ->
  exists UH1 UH2,
    GR4J._compute_unit_hydrographs self = Ok (UH1, UH2) /\
    (0.5 < GR4J.X4 self -> Np.sum UH2 = 1) /\
    (GR4J.X4 self <= 0.5 ->
       UH2 = [0.5 * fpow (1 / GR4J.X4 self) 2.5] /\ 2 <= Np.sum UH2).
Proof.
  intros Hx4.
  destruct (Rlt_dec 0.5 (GR4J.X4 self)) as [Hbig | Hsmall].
  - destruct (@UH2_sum_one self Hbig) as (UH1 & UH2 & Hc & Hsum).
    exists UH1, UH2. split; [exact Hc |]. split; [auto | lra].
  - rewrite compute_unit_hydrographs_valid by assumption.
    do 2 eexists. split; [reflexivity |]. split; [lra |]. intros _.
    set (x4 := GR4J.X4 self) in *.
    rewrite (@Zceil_eq 1 (2 * x4)) by lra.
    assert (Hc0 : UH2_cumulative x4 0 = 0.5 * fpow (1 / x4) 2.5).
    { unfold UH2_cumulative. simpl INR.
      destruct (Rlt_dec 0 x4) as [_ | Hn]; [| lra].
      replace (0 + 1) with 1 by lra. reflexivity. }
    change (GR4J.normalize 1 (map (UH2_cumulative x4) (seq 0 (Z.to_nat 1))))
      with [UH2_cumulative x4 0].
    rewrite Hc0. split; [reflexivity |].
    assert (Hq : 2 <= 1 / x4).
    { apply Rmult_le_reg_r with x4; [exact Hx4 |].
      unfold Rdiv. rewrite Rmult_assoc, Rinv_l by lra. lra. }
    assert (H := @fpow_ge_sqr (1 / x4)). simpl Np.sum. nra.
Qed.

Lemma UH2_sum_characterised_witness :
  exists UH1 UH2,
    GR4J._compute_unit_hydrographs GR4J.default = Ok (UH1, UH2) /\
    Np.sum UH2 = 1.
Proof.
  destruct (@UH2_sum_characterised GR4J.default)
    as (UH1 & UH2 & Hc & Hone & _); [simpl; lra |].
  exists UH1, UH2. split; [exact Hc |]. apply Hone. simpl. lra.
Defined.

(** * Further properties of one simulated step *)

Lemma tanh_0 : tanh 0 = 0.
Proof.
  unfold tanh. rewrite sinh_0. unfold Rdiv. apply Rmult_0_l.
Qed.

Lemma tanh_bounds (x : R) : 0 <= x -> 0 <= tanh x < 1.
Proof.
  intros Hx. unfold tanh, sinh, cosh.
  assert (Ha := exp_pos x). assert (Hb := exp_pos (- x)).
  assert (Hab : exp (- x) <= exp x).
  { destruct Hx as [Hx | <-]; [| rewrite Ropp_0; lra].
    left. apply exp_increasing. lra. }
  assert (Hden : 0 < (exp x + exp (- x)) / 2) by lra.
  split.
  - apply Rmult_le_reg_r with ((exp x + exp (- x)) / 2); [exact Hden |].
    unfold Rdiv at 2. rewrite Rmult_assoc, Rinv_l by lra. lra.
  - apply Rmult_lt_reg_r with ((exp x + exp (- x)) / 2); [exact Hden |].
    unfold Rdiv at 1. rewrite Rmult_assoc, Rinv_l by lra. lra.
Qed.

Lemma div_nonneg_arg (x c : R) : 0 <= x -> 0 < c -> 0 <= x / c.
Proof.
  intros Hx Hc. unfold Rdiv.
  apply Rmult_le_pos; [exact Hx | left; now apply Rinv_0_lt_compat].
Qed.

Lemma clip_inside (x hi : R) : 0 <= x <= hi -> Np.clip x 0 hi = x.
Proof.
  intros Hx. unfold Np.clip, Rmin, Rmax.
  destruct (Rle_dec x 0); destruct (Rle_dec _ hi); lra.
Qed.

(** [1 - b ** (-0.25) <= (b - 1) / 4] for [b >= 1]. *)
Lemma fpow_neg_quarter_lower (b : R) :
  1 <= b -> 1 - (b - 1) / 4 <= fpow b (-0.25).
Proof.
  intros Hb. rewrite fpow_pos by lra. unfold Rpower.
  assert (Hln : ln b <= b - 1).
  { assert (H := exp_ineq1_le (ln b)). rewrite exp_ln in H by lra. lra. }
  assert (H := exp_ineq1_le (-0.25 * ln b)). lra.
Qed.

(** The outflow is at most a quarter of [(r / c / 2.25) ** 4] of the
    content. *)
Lemma outflow_upper_bound (r c : R) :
  0 <= r ->
  r * (1 - fpow (1 + (r / c / 2.25) ^ 4) (-0.25))
  <= r * ((r / c / 2.25) ^ 4 / 4).
Proof.
  intros Hr. set (y := r / c / 2.25).
  assert (Hy4 : 0 <= y ^ 4).
  { replace (y ^ 4) with ((y ^ 2) ^ 2) by ring. apply pow2_ge_0. }
  assert (H := @fpow_neg_quarter_lower (1 + y ^ 4)).
  apply Rmult_le_compat_l; [exact Hr |]. lra.
Qed.

(** What a successful iteration read and wrote. *)
Lemma body_inversion (self : GR4J.t) (UH1 UH2 precip evap : list R) (t : nat)
    (st st' : GR4J.state) :
  GR4J.body self UH1 UH2 precip evap t st = Ok st' ->
  exists p e s1 Q9 s2 Q1,
    Np.getitem precip t = Ok p /\
    Np.getitem evap t = Ok e /\
    let pr := GR4J.production_store self (GR4J.S st) p e in
    let R1 := Rmax 0 (GR4J.R_ st + Q9
                      + GR4J.X2 self * fpow (GR4J.R_ st / GR4J.X3 self) 3.5) in
    let Qr := R1 * (1 - fpow (1 + (R1 / GR4J.X3 self / 2.25) ^ 4) (-0.25)) in
    GR4J.route (GR4J.UH1_stores st) UH1 (0.9 * GR4J.Pr pr) = Ok (s1, Q9) /\
    GR4J.route (GR4J.UH2_stores st) UH2 (0.1 * GR4J.Pr pr) = Ok (s2, Q1) /\
    (t < length (GR4J.Q st))%nat /\
    st' = {| GR4J.S := GR4J.S' pr;
             GR4J.R_ := R1 - Qr;
             GR4J.UH1_stores := s1;
             GR4J.UH2_stores := s2;
             GR4J.Q := Np.update (GR4J.Q st) t (Rmax 0 (Qr + Q1)) |}.
Proof.
  unfold GR4J.body.
  destruct (Np.getitem precip t) as [p | err]; cbn [bind]; [| discriminate].
  destruct (Np.getitem evap t) as [e | err]; cbn [bind]; [| discriminate].
  cbv zeta.
  destruct (GR4J.route (GR4J.UH1_stores st) UH1 _) as [[s1 Q9] | err] eqn:Hr1;
    cbn [bind]; [| discriminate].
  destruct (GR4J.route (GR4J.UH2_stores st) UH2 _) as [[s2 Q1] | err] eqn:Hr2;
    cbn [bind]; [| discriminate].
  unfold Np.setitem.
  destruct (Nat.ltb_spec t (length (GR4J.Q st))) as [Hlt | Hge];
    cbn [bind]; [| discriminate].
  intros Heq. inversion Heq; subst st'.
  exists p, e, s1, Q9, s2, Q1.
  split; [reflexivity |]. split; [reflexivity |]. cbv zeta.
  split; [exact Hr1 |]. split; [exact Hr2 |].
  split; [exact Hlt | reflexivity].
Qed.

Lemma bind_ok_r {A : Type} (m : result A) : (x <- m ;; Ok x) = m.
Proof. destruct m; reflexivity. Qed.

(** The locals after [k + 1] iterations come from those after [k] by one
    more run of the loop body, at index [k]. *)
Lemma run_steps_S (self : GR4J.t) (precip evap : list R) (k : nat) :
  GR4J.run_steps self precip evap (Datatypes.S k) =
  ('(UH1, UH2, _) <- GR4J.setup self precip ;;
   st <- GR4J.run_steps self precip evap k ;;
   GR4J.body self UH1 UH2 precip evap k st).
Proof.
  rewrite (@run_steps_prefix self precip evap k (Datatypes.S k)) by lia.
  destruct (GR4J.setup self precip) as [[[UH1 UH2] st0] | err];
    cbn [bind]; [| reflexivity].
  destruct (GR4J.run_steps self precip evap k) as [st | err];
    cbn [bind]; [| reflexivity].
  replace (Datatypes.S k - k)%nat with 1%nat by lia.
  cbn [seq GR4J.loop]. apply bind_ok_r.
Qed.

(** The setup and the first [k] iterations, with the kernels named. *)
Lemma run_steps_state (self : GR4J.t) (precip evap : list R) (k : nat) :
  GR4J.valid self ->
  (k <= length precip)%nat -> (k <= length evap)%nat ->
  exists UH1 UH2 st0 st,
    GR4J.setup self precip = Ok (UH1, UH2, st0) /\
    (0 < length UH1)%nat /\ (0 < length UH2)%nat /\
    GR4J.run_steps self precip evap k = Ok st /\
    run_invariant self UH1 UH2 (length precip) st.
Proof.
  intros (HX1 & HX3 & HX4) Hp He.
  destruct (@setup_ok self precip HX4) as (UH1 & UH2 & _ & H1 & H2 & Hsetup).
  destruct (@loop_ok self UH1 UH2 precip evap (length precip) (seq 0 k)
              {| GR4J.S := GR4J.X1 self * 0.5;
                 GR4J.R_ := GR4J.X3 self * 0.5;
                 GR4J.UH1_stores := repeat 0 (length UH1);
                 GR4J.UH2_stores := repeat 0 (length UH2);
                 GR4J.Q := repeat 0 (length precip) |})
    as (st & Hloop & Hinv); try assumption; try lra.
  - now apply in_range_seq.
  - apply initial_invariant; lra.
  - exists UH1, UH2. eexists. exists st.
    split; [exact Hsetup |]. split; [exact H1 |]. split; [exact H2 |].
    split; [| exact Hinv].
    unfold GR4J.run_steps. rewrite Hsetup. cbn [bind]. exact Hloop.
Qed.

(** One more step: both states exist and are linked by the loop body. *)
Lemma run_steps_next (self : GR4J.t) (precip evap : list R) (k : nat) :
  GR4J.valid self ->
  (k < length precip)%nat -> (k < length evap)%nat ->
  exists UH1 UH2 st st',
    GR4J.run_steps self precip evap k = Ok st /\
    GR4J.run_steps self precip evap (Datatypes.S k) = Ok st' /\
    GR4J.body self UH1 UH2 precip evap k st = Ok st' /\
    run_invariant self UH1 UH2 (length precip) st.
Proof.
  intros Hvalid Hp He.
  destruct (@run_steps_state self precip evap k Hvalid)
    as (UH1 & UH2 & st0 & st & Hsetup & H1 & H2 & Hk & Hinv); [lia | lia |].
  assert (HX1 : 0 <= GR4J.X1 self) by (destruct Hvalid; lra).
  destruct Hinv as [HS HR Hs1 Hs2 HQn HQ].
  destruct (@body_ok self UH1 UH2 precip evap (length precip) k st)
    as (st' & Hbody & _); try assumption.
  exists UH1, UH2, st, st'. split; [exact Hk |]. split.
  - rewrite run_steps_S, Hsetup, Hk. cbn [bind]. exact Hbody.
  - split; [exact Hbody |]. constructor; assumption.
Qed.

(** X5: one step of a delay line as long as its kernel: the new inflow
    enters at index 0, every older entry moves up by one and the oldest is
    dropped (the entry [np.roll] wraps around is overwritten), and the
    output is the dot product of the new line with the kernel. *)
Theorem delay_line_shift (stores UH : list R) (v : R) :
  stores <> [] -> length stores = length UH ->
  GR4J.route stores UH v =
  Ok (v :: removelast stores,
      Np.sum (Np.map2 Rmult (v :: removelast stores) UH)).
Proof.
  intros Hne Hlen.
  destruct stores as [| x stores]; [contradiction |].
  unfold GR4J.route.
  rewrite setitem_in_range by (rewrite length_roll1; simpl; lia).
  cbn [bind].
  change (Np.update (Np.roll1 (x :: stores)) 0 v)
    with (v :: removelast (x :: stores)).
  rewrite binop_same_length; [reflexivity |].
  rewrite <- Hlen. cbn [length]. rewrite length_removelast. reflexivity.
Qed.

Lemma delay_line_shift_witness :
  GR4J.route [1; 2; 3] [0.5; 0.25; 0.25] 7 =
  Ok ([7; 1; 2], Np.sum (Np.map2 Rmult [7; 1; 2] [0.5; 0.25; 0.25])).
Proof.
  apply (@delay_line_shift [1; 2; 3] [0.5; 0.25; 0.25] 7);
    [discriminate | reflexivity].
Defined.

Lemma production_balance (self : GR4J.t) (S0 p e : R) :
  0 < GR4J.X1 self -> 0 <= S0 <= GR4J.X1 self ->
  let pr := GR4J.production_store self S0 p e in
  0 <= GR4J.Ps pr <= GR4J.X1 self - S0 /\
  0 <= GR4J.Es pr <= S0 /\
  0 <= GR4J.perc pr /\
  GR4J.S' pr = S0 + GR4J.Ps pr - GR4J.Es pr - GR4J.perc pr.
Proof.
  intros HX1 HS pr. subst pr. unfold GR4J.production_store.
  set (x1 := GR4J.X1 self) in *.
  set (r := S0 / x1).
  assert (Hr : 0 <= r <= 1).
  { unfold r. split; [apply div_nonneg_arg; lra |].
    apply Rmult_le_reg_r with x1; [exact HX1 |].
    unfold Rdiv. rewrite Rmult_assoc, Rinv_l by lra. lra. }
  assert (HS0 : S0 = r * x1) by (unfold r; field; lra).
  destruct (Rge_dec p e) as [Hge | Hlt]; cbv zeta;
    cbn [GR4J.Ps GR4J.Es GR4J.perc GR4J.S'].
  - destruct (@tanh_bounds ((p - e) / x1)) as [Ht0 Ht1];
      [apply div_nonneg_arg; lra |].
    set (th := tanh ((p - e) / x1)) in *.
    assert (HD : 0 < 1 + r * th) by nra.
    set (Ps := x1 * (1 - r ^ 2) * th / (1 + r * th)).
    assert (HPs : Ps * (1 + r * th) = x1 * (1 - r ^ 2) * th)
      by (unfold Ps; field; lra).
    assert (HPs0 : 0 <= Ps).
    { unfold Ps. apply div_nonneg_arg; [| exact HD].
      apply Rmult_le_pos; [| exact Ht0]. nra. }
    assert (HPs1 : Ps <= x1 - S0).
    { apply Rmult_le_reg_r with (1 + r * th); [exact HD |].
      rewrite HPs, HS0. nra. }
    assert (Hclip : Np.clip (S0 - 0 + Ps) 0 x1 = S0 + Ps)
      by (rewrite clip_inside; lra).
    rewrite Hclip.
    assert (Hf := outflow_fraction ((S0 + Ps) / x1)).
    repeat split; try lra; nra.
  - destruct (@tanh_bounds ((e - p) / x1)) as [Ht0 Ht1];
      [apply div_nonneg_arg; lra |].
    set (th := tanh ((e - p) / x1)) in *.
    assert (HD : 0 < 1 + (1 - r) * th) by nra.
    set (Es := S0 * (2 - r) * th / (1 + (1 - r) * th)).
    assert (HEs : Es * (1 + (1 - r) * th) = S0 * (2 - r) * th)
      by (unfold Es; field; lra).
    assert (HEs0 : 0 <= Es).
    { unfold Es. apply div_nonneg_arg; [| exact HD].
      apply Rmult_le_pos; [| exact Ht0]. nra. }
    assert (HEs1 : Es <= S0).
    { apply Rmult_le_reg_r with (1 + (1 - r) * th); [exact HD |].
      rewrite HEs. nra. }
    assert (Hclip : Np.clip (S0 - Es + 0) 0 x1 = S0 - Es)
      by (rewrite clip_inside; lra).
    rewrite Hclip.
    assert (Hf := outflow_fraction ((S0 - Es) / x1)).
    repeat split; try lra; nra.
Qed.

(** X7: with [X1 > 0] the percolation of a step is never negative and at
    most 64/6561 (less than one percent) of what the store holds after
    inflow and evaporation. *)
Theorem percolation_below_one_percent (self : GR4J.t) (S0 p e : R) :
  0 < GR4J.X1 self ->
  let pr := GR4J.production_store self S0 p e in
  0 <= GR4J.perc pr <= 64 / 6561 * (GR4J.S' pr + GR4J.perc pr) /\
  GR4J.perc pr <= 0.01 * GR4J.X1 self.
Proof.
  intros HX1 pr. subst pr. unfold GR4J.production_store.
  destruct (Rge_dec p e); cbv zeta; cbn [GR4J.perc GR4J.S'];
    match goal with
    | |- context [Np.clip ?x 0 ?hi] =>
        set (c := Np.clip x 0 hi);
        assert (Hc : 0 <= c <= hi) by (apply clip_bounds; lra)
    end;
    set (x1 := GR4J.X1 self) in *;
    assert (Hf := outflow_fraction (c / x1));
    assert (Hup := @outflow_upper_bound c x1 (proj1 Hc));
    assert (Hy : 0 <= c / x1 / 2.25 <= 4 / 9)
      by (split;
          [apply div_nonneg_arg; [apply div_nonneg_arg |]; lra
          | apply Rmult_le_reg_r with (2.25 * x1); [lra |];
            replace (c / x1 / 2.25 * (2.25 * x1)) with c by (field; lra);
            lra]);
    set (y := c / x1 / 2.25) in *;
    assert (Hy2 : y ^ 2 <= 16 / 81) by nra;
    assert (Hy2' : 0 <= y ^ 2) by apply pow2_ge_0;
    assert (Hy4 : y ^ 4 <= 256 / 6561)
      by (replace (y ^ 4) with (y ^ 2 * y ^ 2) by ring; nra);
    assert (Hy4' : 0 <= y ^ 4)
      by (replace (y ^ 4) with ((y ^ 2) ^ 2) by ring; apply pow2_ge_0);
    assert (Hperc : c * (y ^ 4 / 4) <= c * (64 / 6561)) by nra;
    repeat split; try nra.
Qed.

Lemma percolation_below_one_percent_witness :
  let pr := GR4J.production_store GR4J.default 175 10 0 in
  0 <= GR4J.perc pr /\ GR4J.perc pr <= 3.5.
Proof.
  intros pr.
  destruct (@percolation_below_one_percent GR4J.default 175 10 0)
    as ((H0 & _) & H1); [simpl; lra |].
  fold pr in H0, H1. simpl GR4J.X1 in H1. split; lra.
Defined.

Lemma production_store_dry (self : GR4J.t) (S0 p e : R) :
  0 < GR4J.X1 self -> 0 <= S0 <= GR4J.X1 self -> p <= e ->
  GR4J.Ps (GR4J.production_store self S0 p e) = 0 /\
  GR4J.S' (GR4J.production_store self S0 p e) <= S0.
Proof.
  intros HX1 HS Hpe.
  assert (HPs : GR4J.Ps (GR4J.production_store self S0 p e) = 0).
  { unfold GR4J.production_store.
    destruct (Rge_dec p e) as [Hge | _]; cbv zeta; cbn [GR4J.Ps];
      [| reflexivity].
    replace (p - e) with 0 by lra.
    replace (0 / GR4J.X1 self) with 0 by (unfold Rdiv; ring).
    rewrite tanh_0. unfold Rdiv. ring. }
  split; [exact HPs |].
  destruct (@production_balance self S0 p e HX1 HS)
    as (_ & HEs & Hperc & HS').
  rewrite HS', HPs. lra.
Qed.

(** X9: on a day whose precipitation does not exceed its potential
    evapotranspiration nothing enters the production store; so with valid
    parameters, over series of equal length in which no day has more
    precipitation than evapotranspiration (zero forcing included), the
    production store never increases from one step to the next. *)
Theorem production_store_non_increasing_when_dry
    (self : GR4J.t) (precip evap : list R) (k : nat) :
  GR4J.valid self ->
  length precip = length evap ->
  (forall t p e,
     nth_error precip t = Some p -> nth_error evap t = Some e -> p <= e) ->
  (k < length precip)%nat ->
  exists st st',
    GR4J.run_steps self precip evap k = Ok st /\
    GR4J.run_steps self precip evap (Datatypes.S k) = Ok st' /\
    GR4J.S st' <= GR4J.S st.
Proof.
  intros Hvalid Hlen Hdry Hk.
  destruct (@run_steps_next self precip evap k Hvalid)
    as (UH1 & UH2 & st & st' & Hst & Hst' & Hbody & Hinv); [lia | lia |].
  exists st, st'. split; [exact Hst |]. split; [exact Hst' |].
  apply body_inversion in Hbody.
  destruct Hbody as (p & e & s1 & Q9 & s2 & Q1 & Hp & He & Hrest).
  cbv zeta in Hrest. destruct Hrest as (_ & _ & _ & ->).
  cbn [GR4J.S].
  destruct Hvalid as (HX1 & _ & _). destruct Hinv as [HS _ _ _ _ _].
  apply production_store_dry; [exact HX1 | exact HS |].
  unfold Np.getitem in Hp, He.
  destruct (nth_error precip k) as [p' |] eqn:Hp'; [| discriminate].
  destruct (nth_error evap k) as [e' |] eqn:He'; [| discriminate].
  inversion Hp; inversion He; subst. now apply (Hdry k).
Qed.

Lemma production_store_non_increasing_when_dry_witness :
  exists st st',
    GR4J.run_steps GR4J.default [0; 0; 0] [0; 0; 0] 1 = Ok st /\
    GR4J.run_steps GR4J.default [0; 0; 0] [0; 0; 0] 2 = Ok st' /\
    GR4J.S st' <= GR4J.S st.
Proof.
  apply (@production_store_non_increasing_when_dry
           GR4J.default [0; 0; 0] [0; 0; 0] 1);
    [exact valid_default | reflexivity | | simpl; lia].
  intros t p e Hp He.
  destruct t as [| [| [| [| t]]]]; simpl in Hp, He;
    try discriminate; injection Hp as <-; injection He as <-; lra.
Defined.

(** * Further properties of a whole run *)

(** X10: with a time base in (-0.5, 0] the kernels and delay lines are
    empty, and (for X1 different from 0, so that no division by zero
    comes first) [run] on a series with at least one day fails with
    [IndexError]: at the first [evap[0]] if there is none, otherwise at
    the assignment [UH1_stores[0] = Pr9]. *)
Theorem run_empty_kernels_raises (self : GR4J.t) (precip evap : list R) :
  -0.5 < GR4J.X4 self <= 0 ->
  GR4J.X1 self <> 0 ->
  precip <> [] ->
  snd (GR4J.run self precip evap) = Raise IndexError.
Proof.
  intros Hx4 _ Hne.
  destruct precip as [| p precip]; [contradiction |].
  unfold GR4J.run, GR4J.run_steps, GR4J.setup. cbn [snd].
  rewrite zeros_of_nat. cbn [bind].
  rewrite compute_unit_hydrographs_empty by exact Hx4.
  cbn [bind length]. rewrite !zeros_of_nat. cbn [bind repeat].
  cbn [seq GR4J.loop]. unfold GR4J.body.
  cbn [Np.getitem nth_error bind].
  destruct evap as [| e evap]; cbn [Np.getitem nth_error bind];
    reflexivity.
Qed.

Lemma run_empty_kernels_raises_witness :
  snd (GR4J.run (GR4J.mk 350 0 90 0) [10; 0] [1; 1]) = Raise IndexError.
Proof.
  apply (@run_empty_kernels_raises (GR4J.mk 350 0 90 0) [10; 0] [1; 1]);
    simpl; try lra; discriminate.
Defined.

(** ** Discharge does not depend on later forcing *)

Lemma firstn_update_lt (k t : nat) (a : list R) (v : R) :
  (t < k)%nat -> firstn k (Np.update a t v) = Np.update (firstn k a) t v.
Proof.
  revert t a; induction k as [| k IH]; intros t a Ht; [lia |].
  destruct a as [| x a]; [destruct t; reflexivity |].
  destruct t as [| t]; [reflexivity |].
  cbn [Np.update firstn]. f_equal. apply IH. lia.
Qed.

Lemma firstn_update_ge (k t : nat) (a : list R) (v : R) :
  (k <= t)%nat -> firstn k (Np.update a t v) = firstn k a.
Proof.
  revert t a; induction k as [| k IH]; intros t a Ht; [reflexivity |].
  destruct a as [| x a]; [destruct t; reflexivity |].
  destruct t as [| t]; [lia |].
  cbn [Np.update firstn]. f_equal. apply IH. lia.
Qed.

Lemma firstn_repeat_zero (k n : nat) :
  (k <= n)%nat -> firstn k (repeat 0 n) = repeat 0 k.
Proof.
  revert n; induction k as [| k IH]; intros n Hk; [reflexivity |].
  destruct n as [| n]; [lia |].
  cbn [repeat firstn]. f_equal. apply IH. lia.
Qed.

Lemma getitem_firstn (k t : nat) (a : list R) :
  (t < k)%nat -> Np.getitem (firstn k a) t = Np.getitem a t.
Proof.
  intros Ht. unfold Np.getitem. rewrite nth_error_firstn.
  destruct (Nat.ltb_spec t k); [reflexivity | lia].
Qed.

(** An iteration below [k] on the series cut to [k] days does what it
    does on the full series. *)
Lemma body_prefix (self : GR4J.t) (UH1 UH2 precip evap : list R)
    (k t : nat) (st st' st1 : GR4J.state) :
  (t < k)%nat -> same_up_to k st st' ->
  GR4J.body self UH1 UH2 precip evap t st = Ok st1 ->
  exists st1',
    GR4J.body self UH1 UH2 (firstn k precip) (firstn k evap) t st' = Ok st1' /\
    same_up_to k st1 st1'.
Proof.
  intros Ht (HS & HR & Hs1 & Hs2 & HQ) Hbody.
  apply body_inversion in Hbody.
  destruct Hbody as (p & e & s1 & Q9 & s2 & Q1 & Hp & He & Hrest).
  cbv zeta in Hrest. destruct Hrest as (Hr1 & Hr2 & HtQ & ->).
  unfold GR4J.body.
  rewrite !getitem_firstn by exact Ht. rewrite Hp, He. cbn [bind].
  rewrite HS, HR, Hs1, Hs2, Hr1. cbn [bind]. rewrite Hr2. cbn [bind].
  rewrite HQ, setitem_in_range by (rewrite length_firstn; lia).
  cbn [bind]. eexists. split; [reflexivity |].
  unfold same_up_to.
  cbn [GR4J.S GR4J.R_ GR4J.UH1_stores GR4J.UH2_stores GR4J.Q].
  repeat split. symmetry. now apply firstn_update_lt.
Qed.

Lemma loop_prefix (self : GR4J.t) (UH1 UH2 precip evap : list R)
    (k : nat) (ts : list nat) (st st' st1 : GR4J.state) :
  Forall (fun t => t < k)%nat ts -> same_up_to k st st' ->
  GR4J.loop self UH1 UH2 precip evap ts st = Ok st1 ->
  exists st1',
    GR4J.loop self UH1 UH2 (firstn k precip) (firstn k evap) ts st' = Ok st1' /\
    same_up_to k st1 st1'.
Proof.
  intros Hts; revert st st'.
  induction Hts as [| t ts Ht Hts IH]; intros st st' Hsame Hloop.
  - cbn [GR4J.loop] in *. inversion Hloop; subst. now exists st'.
  - cbn [GR4J.loop] in *.
    destruct (GR4J.body self UH1 UH2 precip evap t st) as [st2 | err] eqn:Hb;
      cbn [bind] in Hloop; [| discriminate].
    destruct (@body_prefix self UH1 UH2 precip evap k t st st' st2 Ht Hsame Hb)
      as (st2' & Hb' & Hsame2).
    rewrite Hb'. cbn [bind]. now apply (IH st2 st2').
Qed.

(** Iterations from [k] on leave the first [k] discharges alone. *)
Lemma loop_keeps_prefix (self : GR4J.t) (UH1 UH2 precip evap : list R)
    (k : nat) (ts : list nat) (st st1 : GR4J.state) :
  Forall (fun t => k <= t)%nat ts ->
  GR4J.loop self UH1 UH2 precip evap ts st = Ok st1 ->
  firstn k (GR4J.Q st1) = firstn k (GR4J.Q st).
Proof.
  intros Hts; revert st.
  induction Hts as [| t ts Ht Hts IH]; intros st Hloop.
  - cbn [GR4J.loop] in Hloop. inversion Hloop; subst. reflexivity.
  - cbn [GR4J.loop] in Hloop.
    destruct (GR4J.body self UH1 UH2 precip evap t st) as [st2 | err] eqn:Hb;
      cbn [bind] in Hloop; [| discriminate].
    rewrite (IH st2 Hloop).
    apply body_inversion in Hb.
    destruct Hb as (p & e & s1 & Q9 & s2 & Q1 & _ & _ & Hrest).
    cbv zeta in Hrest. destruct Hrest as (_ & _ & _ & ->).
    cbn [GR4J.Q]. now apply firstn_update_ge.
Qed.

(** X11: discharge is causal.  If [run] returns a series for some forcing,
    then on the forcing cut to its first [k] days it returns the first [k]
    discharges of that series: what comes later in the forcing changes
    nothing earlier in the output. *)
Theorem run_prefix (self : GR4J.t) (precip evap Qs : list R) (k : nat) :
  snd (GR4J.run self precip evap) = Ok Qs ->
  (k <= length precip)%nat ->
  snd (GR4J.run self (firstn k precip) (firstn k evap)) = Ok (firstn k Qs).
Proof.
  intros Hrun Hk. unfold GR4J.run in *. cbn [snd] in *.
  rewrite (@run_steps_prefix self precip evap k (length precip) Hk) in Hrun.
  destruct (GR4J.setup self precip) as [[[UH1 UH2] st0] | err] eqn:Hsetup;
    cbn [bind] in Hrun; [| discriminate].
  destruct (GR4J.run_steps self precip evap k) as [stk | err] eqn:Hstk;
    cbn [bind] in Hrun; [| discriminate].
  destruct (GR4J.loop self UH1 UH2 precip evap (seq k (length precip - k)) stk)
    as [stn | err] eqn:Hrest; cbn [bind] in Hrun; [| discriminate].
  inversion Hrun; subst Qs.
  assert (Hkeep : firstn k (GR4J.Q stn) = firstn k (GR4J.Q stk)).
  { apply (@loop_keeps_prefix self UH1 UH2 precip evap k
             (seq k (length precip - k)) stk stn); [| exact Hrest].
    apply Forall_forall. intros t Ht. apply in_seq in Ht. lia. }
  rewrite Hkeep.
  destruct (setup_initial_state _ _ Hsetup) as [Hc Hst0].
  unfold GR4J.run_steps in Hstk. rewrite Hsetup in Hstk. cbn [bind] in Hstk.
  assert (Hlenk : length (firstn k precip) = k) by (rewrite length_firstn; lia).
  unfold GR4J.run_steps, GR4J.setup. rewrite Hlenk, zeros_of_nat.
  cbn [bind]. rewrite Hc. cbn [bind]. rewrite !zeros_of_nat. cbn [bind].
  destruct (@loop_prefix self UH1 UH2 precip evap k (seq 0 k) st0
              {| GR4J.S := GR4J.X1 self * 0.5;
                 GR4J.R_ := GR4J.X3 self * 0.5;
                 GR4J.UH1_stores := repeat 0 (length UH1);
                 GR4J.UH2_stores := repeat 0 (length UH2);
                 GR4J.Q := repeat 0 k |} stk)
    as (stk' & Hloop' & Hsame).
  - apply Forall_forall. intros t Ht. apply in_seq in Ht. lia.
  - subst st0. unfold same_up_to.
    cbn [GR4J.S GR4J.R_ GR4J.UH1_stores GR4J.UH2_stores GR4J.Q].
    repeat split. symmetry. now apply firstn_repeat_zero.
  - exact Hstk.
  - rewrite Hloop'. cbn [bind].
    destruct Hsame as (_ & _ & _ & _ & HQ). now rewrite HQ.
Qed.

Lemma run_prefix_witness :
  exists Qs,
    snd (GR4J.run GR4J.default [10; 0; 5] [1; 2; 3]) = Ok Qs /\
    snd (GR4J.run GR4J.default [10; 0] [1; 2]) = Ok (firstn 2 Qs).
Proof.
  destruct (@run_returns GR4J.default [10; 0; 5] [1; 2; 3] valid_default)
    as (Qs & Hrun & _); [simpl; lia |].
  exists Qs. split; [exact Hrun |].
  apply (@run_prefix GR4J.default [10; 0; 5] [1; 2; 3] Qs 2 Hrun).
  simpl. lia.
Defined.

(** * Further properties of the efficiency score *)


Lemma nse_upper (observed simulated : list R) (q : float64) :
  calculate_nse observed simulated = Ok q ->
  q <> PosInf /\ (forall v, q = Fin v -> v <= 1).
Proof.
  unfold calculate_nse.
  destruct (Np.binop Rminus observed simulated) as [d | err];
    cbn [bind]; [| discriminate].
  cbv zeta. intros Hq. inversion Hq; subst q. clear Hq.
  assert (Hn := sum_square_nonneg d).
  assert (Hd := sum_square_nonneg
                  (map (fun o => o - Np.mean observed) observed)).
  unfold Np.true_divide.
  destruct (Req_dec_T _ 0) as [Hz | Hnz].
  - destruct (Req_dec_T (Np.sum (square d)) 0) as [Hn0 | Hn1]; cbn [Np.rsub].
    + split; [discriminate | intros v Hv; discriminate].
    + destruct (Rlt_dec 0 (Np.sum (square d))) as [_ | Hneg]; [| lra].
      cbn [Np.rsub]. split; [discriminate | intros v Hv; discriminate].
  - cbn [Np.rsub]. split; [discriminate |].
    intros v Hv. inversion Hv; subst v.
    assert (0 <= Np.sum (square d)
                 / Np.sum (square (map (fun o => o - Np.mean observed)
                                     observed)))
      by (apply div_nonneg_arg; lra).
    lra.
Qed.

(** X12: the efficiency never exceeds 1: whatever [calculate_nse]
    returns is nan, -inf or a finite number that is at most 1. *)
Theorem nse_at_most_one (observed simulated : list R) (q : float64) :
  calculate_nse observed simulated = Ok q ->
  q <> PosInf /\ (forall v, q = Fin v -> v <= 1).
Proof.
  intros Hq. exact (@nse_upper observed simulated q Hq).
Qed.

Lemma nse_at_most_one_witness :
  exists q,
    calculate_nse [0; 1] [0; 1] = Ok q /\ q <> PosInf /\
    (forall v, q = Fin v -> v <= 1).
Proof.
  destruct (calculate_nse [0; 1] [0; 1]) as [q | err] eqn:Hq.
  - exists q. split; [reflexivity |].
    exact (@nse_at_most_one [0; 1] [0; 1] q Hq).
  - exfalso. unfold calculate_nse in Hq. simpl in Hq. discriminate.
Defined.


(** X16: [calculate_nse] fails with [ValueError] exactly on shapes that
    do not broadcast: series of different lengths of which neither has
    length 1.  A series of length 1 is broadcast against the other instead
    of being rejected. *)
Theorem nse_shape_error (observed simulated : list R) :
  fails (calculate_nse observed simulated) <->
  (length observed <> length simulated /\
   length observed <> 1%nat /\ length simulated <> 1%nat).
Proof.
  unfold calculate_nse, Np.binop. split.
  - intros [err Herr].
    destruct (Nat.eqb_spec (length observed) (length simulated)) as [Heq | Hne];
      cbn [bind] in Herr; [discriminate |].
    split; [exact Hne |].
    destruct observed as [| o [| o' observed]];
      destruct simulated as [| s [| s' simulated]];
      cbn [bind length] in *; try discriminate; try contradiction;
      split; discriminate.
  - intros (Hne & Ho & Hs).
    destruct (Nat.eqb_spec (length observed) (length simulated)) as [Heq | _];
      [contradiction |].
    exists ValueError.
    destruct observed as [| o [| o' observed]];
      destruct simulated as [| s [| s' simulated]];
      cbn [bind length] in *; try reflexivity; try contradiction.
Qed.

Lemma nse_shape_error_witness :
  fails (calculate_nse [1; 2; 3] [1; 2]) /\
  ~ fails (calculate_nse [1; 2; 3] [2]).
Proof.
  split.
  - apply (proj2 (@nse_shape_error [1; 2; 3] [1; 2])).
    simpl. repeat split; discriminate.
  - intros Hf. apply (proj1 (@nse_shape_error [1; 2; 3] [2])) in Hf.
    simpl in Hf. destruct Hf as (_ & _ & Hs). now apply Hs.
Defined.

(** * The metrics of the validation script *)

Lemma length_pos_INR (a : list R) : a <> [] -> 0 < INR (length a).
Proof.
  intros Hne. apply lt_0_INR. destruct a; [contradiction | simpl; lia].
Qed.

Lemma mean64_nonempty (a : list R) :
  a <> [] -> mean64 a = Fin (Np.sum a / INR (length a)).
Proof.
  intros Hne. destruct a; [contradiction | reflexivity].
Qed.

Lemma map2_nonempty (a b : list R) :
  a <> [] -> length b = length a -> Np.map2 Rminus a b <> [].
Proof.
  intros Hne Hlen. destruct a; [contradiction |].
  destruct b; [discriminate | discriminate].
Qed.

Lemma length_square (a : list R) : length (square a) = length a.
Proof. apply length_map. Qed.

Lemma square_nonempty (a : list R) : a <> [] -> square a <> [].
Proof. destruct a; [contradiction | discriminate]. Qed.

(** The root mean square error of two series of the same positive
    length, written out. *)
Lemma rmse_value (obs sim : list R) :
  obs <> [] -> length sim = length obs ->
  Validate.rmse obs sim =
  Ok (Fin (sqrt (Np.sum (square (Np.map2 Rminus obs sim))
                 / INR (length obs)))) /\
  0 <= Np.sum (square (Np.map2 Rminus obs sim)) / INR (length obs).
Proof.
  intros Hne Hlen.
  assert (Hpos := length_pos_INR Hne).
  assert (Hnn := sum_square_nonneg (Np.map2 Rminus obs sim)).
  assert (Hq : 0 <= Np.sum (square (Np.map2 Rminus obs sim))
                    / INR (length obs))
    by (apply div_nonneg_arg; lra).
  split; [| exact Hq].
  unfold Validate.rmse. rewrite binop_same_length by auto. cbn [bind].
  rewrite mean64_nonempty
    by (apply square_nonempty; now apply map2_nonempty).
  rewrite length_square, length_map2, Hlen, Nat.min_id.
  unfold sqrt64. destruct (Rlt_dec _ 0) as [Hneg | _]; [lra | reflexivity].
Qed.

(** * Potential evapotranspiration *)

Lemma sqrt_abs_zero (x : R) : sqrt (Rabs x) = 0 <-> x = 0.
Proof.
  split.
  - intros Hz. apply sqrt_eq_0 in Hz; [| apply Rabs_pos].
    destruct (Req_dec x 0) as [H0 | Hn]; [exact H0 |].
    apply Rabs_no_R0 in Hn. contradiction.
  - intros ->. rewrite Rabs_R0. apply sqrt_0.
Qed.

Lemma potential_evapotranspiration_nth (temp : list R) (t : nat) (T : R) :
  nth_error temp t = Some T ->
  nth_error (potential_evapotranspiration temp) t
  = Some (Rmax (0.0023 * (T + 17.8) * sqrt (Rabs (T - (-5))) * 2.5) 0).
Proof.
  intros HT. unfold potential_evapotranspiration. cbv zeta.
  rewrite map_map. rewrite nth_error_map, HT. reflexivity.
Qed.

(** X20: the derived potential evapotranspiration has one value per
    temperature, none of them negative; the value is 0 exactly for
    temperatures at or below -17.8 and at the temperature -5, where the
    square root vanishes. *)
Theorem potential_evapotranspiration_nonneg (temp : list R) :
  length (potential_evapotranspiration temp) = length temp /\
  Forall (fun v => 0 <= v) (potential_evapotranspiration temp) /\
  (forall t T,
     nth_error temp t = Some T ->
     exists v,
       nth_error (potential_evapotranspiration temp) t = Some v /\
       (v = 0 <-> T <= -17.8 \/ T = -5)).
Proof.
  split; [unfold potential_evapotranspiration; now rewrite !length_map |].
  split.
  - unfold potential_evapotranspiration. cbv zeta.
    apply Forall_forall. intros v Hv. apply in_map_iff in Hv.
    destruct Hv as (x & <- & _). apply Rmax_r.
  - intros t T HT.
    exists (Rmax (0.0023 * (T + 17.8) * sqrt (Rabs (T - (-5))) * 2.5) 0).
    split; [exact (@potential_evapotranspiration_nth temp t T HT) |].
    assert (Hs := sqrt_pos (Rabs (T - (-5)))).
    assert (Hs0 := sqrt_abs_zero (T - (-5))).
    set (s := sqrt (Rabs (T - (-5)))) in *.
    unfold Rmax.
    destruct (Rle_dec (0.0023 * (T + 17.8) * s * 2.5) 0) as [Hle | Hgt].
    + split; [intros _ | reflexivity].
      destruct (Rle_dec T (-17.8)) as [Hcold | Hwarm]; [now left | right].
      assert (Hz : s = 0) by nra.
      apply Hs0 in Hz. lra.
    + split.
      * intros Hz. lra.
      * intros [Hcold | Hfive]; exfalso; apply Hgt.
        -- nra.
        -- assert (Hz : s = 0) by (apply Hs0; lra). rewrite Hz. lra.
Qed.

Lemma potential_evapotranspiration_nonneg_witness :
  exists v,
    nth_error (potential_evapotranspiration [20; -5; -30]) 1 = Some v /\ v = 0.
Proof.
  destruct (@potential_evapotranspiration_nonneg [20; -5; -30])
    as (_ & _ & Hnth).
  destruct (Hnth 1%nat (-5) eq_refl) as (v & Hv & Hiff).
  exists v. split; [exact Hv |]. apply Hiff. right. reflexivity.
Defined.

(** X21: from -5 degrees upwards a warmer day never has less potential
    evapotranspiration. *)
Theorem potential_evapotranspiration_monotone (T1 T2 : R) :
  -5 <= T1 <= T2 ->
  exists v1 v2,
    potential_evapotranspiration [T1] = [v1] /\
    potential_evapotranspiration [T2] = [v2] /\
    v1 <= v2.
Proof.
  intros [H1 H12]. do 2 eexists.
  split; [reflexivity |]. split; [reflexivity |].
  assert (Hs1 := sqrt_pos (Rabs (T1 - (-5)))).
  assert (Hs : sqrt (Rabs (T1 - (-5))) <= sqrt (Rabs (T2 - (-5)))).
  { apply sqrt_le_1_alt. rewrite !Rabs_pos_eq by lra. lra. }
  apply Rle_max_compat_r. nra.
Qed.

Lemma potential_evapotranspiration_monotone_witness :
  exists v1 v2,
    potential_evapotranspiration [10] = [v1] /\
    potential_evapotranspiration [25] = [v2] /\
    v1 <= v2.
Proof.
  apply (@potential_evapotranspiration_monotone 10 25). lra.
Defined.

(** * The validation script and the calibration objective *)






(** * The preprocessing script *)

Lemma combine_map_same {A B C : Type} (f : A -> B) (g : A -> C) (s : list A) :
  combine (map f s) (map g s) = map (fun i => (f i, g i)) s.
Proof.
  induction s as [| i s IH]; [reflexivity |]. cbn [map combine]. now rewrite IH.
Qed.

Lemma combine_seq {A B : Type} (d : A) (h : nat -> B) (l : list A) (k : nat) :
  combine l (map h (seq k (length l)))
  = map (fun i => (nth (i - k) l d, h i)) (seq k (length l)).
Proof.
  revert k; induction l as [| x l IH]; intros k; [reflexivity |].
  cbn [length seq map combine]. f_equal.
  - now rewrite Nat.sub_diag.
  - rewrite IH. apply map_ext_in. intros i Hi. apply in_seq in Hi.
    replace (i - k)%nat with (Datatypes.S (i - Datatypes.S k)) by lia.
    reflexivity.
Qed.

Lemma filter_all {A : Type} (f : A -> bool) (l : list A) :
  (forall x, In x l -> f x = true) -> filter f l = l.
Proof.
  induction l as [| x l IH]; intros Hall; [reflexivity |].
  cbn [filter]. rewrite (Hall x) by now left.
  f_equal. apply IH. intros y Hy. apply Hall. now right.
Qed.

Lemma filter_none {A : Type} (f : A -> bool) (l : list A) :
  (forall x, In x l -> f x = false) -> filter f l = [].
Proof.
  induction l as [| x l IH]; intros Hall; [reflexivity |].
  cbn [filter]. rewrite (Hall x) by now left.
  apply IH. intros y Hy. apply Hall. now right.
Qed.

Lemma filter_seq_from (k n : nat) :
  filter (fun i => negb (i <? k)%nat) (seq 0 n) = seq k (n - k).
Proof.
  destruct (Nat.le_gt_cases n k) as [Hle | Hgt].
  - replace (n - k)%nat with 0%nat by lia. apply filter_none.
    intros i Hi. apply in_seq in Hi.
    destruct (Nat.ltb_spec i k); [reflexivity | lia].
  - replace n with (k + (n - k))%nat at 1 by lia.
    rewrite seq_app, filter_app. cbn [Nat.add].
    rewrite filter_none, filter_all; [reflexivity | |].
    + intros i Hi. apply in_seq in Hi.
      destruct (Nat.ltb_spec i k); [lia | reflexivity].
    + intros i Hi. apply in_seq in Hi.
      destruct (Nat.ltb_spec i k); [reflexivity | lia].
Qed.

(** The table after [dropna], row by row. *)
Lemma processed_table (d : ProcessData.raw) (df : list ProcessData.raw) :
  ProcessData.dropna (ProcessData.add_features df) =
  map (fun i =>
         {| ProcessData.base := nth i df d;
            ProcessData.precip_7day :=
              Some (Np.sum (ProcessData.window
                              (map ProcessData.precipitation_mm df) i) / 7);
            ProcessData.temp_7day :=
              Some (Np.sum (ProcessData.window
                              (map ProcessData.temperature_c df) i) / 7) |})
      (seq 6 (length df - 6)).
Proof.
  unfold ProcessData.add_features, ProcessData.rolling_mean. cbv zeta.
  rewrite !length_map, combine_map_same.
  rewrite (@combine_seq _ _ d). rewrite map_map.
  unfold ProcessData.dropna. rewrite filter_map_swap.
  cbn [fst snd ProcessData.precip_7day ProcessData.temp_7day].
  rewrite (@filter_ext _ _ (fun i => negb (i <? 6)%nat)).
  - rewrite filter_seq_from. apply map_ext_in. intros i Hi.
    apply in_seq in Hi. rewrite Nat.sub_0_r.
    destruct (Nat.ltb_spec i 6); [lia | reflexivity].
  - intros i. destruct (i <? 6)%nat; reflexivity.
Qed.

Lemma window_map {A : Type} (f : A -> R) (l : list A) (i : nat) :
  ProcessData.window (map f l) (i + 6) = map f (firstn 7 (skipn i l)).
Proof.
  unfold ProcessData.window. rewrite Nat.add_sub.
  now rewrite skipn_map, firstn_map.
Qed.

Lemma processed_row (df : list ProcessData.raw) (i : nat)
    (r : ProcessData.processed) :
  nth_error (ProcessData.dropna (ProcessData.add_features df)) i = Some r ->
  nth_error df (i + 6) = Some (ProcessData.base r) /\
  ProcessData.precip_7day r =
    Some (Np.sum (map ProcessData.precipitation_mm (firstn 7 (skipn i df))) / 7) /\
  ProcessData.temp_7day r =
    Some (Np.sum (map ProcessData.temperature_c (firstn 7 (skipn i df))) / 7).
Proof.
  destruct df as [| d df']; [destruct i; discriminate |].
  remember (d :: df') as df eqn:Hdf. rewrite (@processed_table d df).
  rewrite nth_error_map, nth_error_seq.
  destruct (Nat.ltb_spec i (length df - 6)) as [Hlt | Hge];
    cbn [option_map]; [| discriminate].
  replace (6 + i)%nat with (i + 6)%nat by lia.
  rewrite !window_map.
  intros Hr. injection Hr as <-.
  cbn [ProcessData.base ProcessData.precip_7day ProcessData.temp_7day].
  split; [apply nth_error_nth'; lia | split; reflexivity].
Qed.

(** X25: the processed table is the raw table without its first six
    days, in the same order, each remaining day carrying the means of
    precipitation and of temperature over that day and the six days before
    it; a raw table of fewer than seven days leaves nothing. *)
Theorem processed_rows (df : list ProcessData.raw) :
  let out := fst (fst (ProcessData.script df)) in
  length out = (length df - 6)%nat /\
  map ProcessData.base out = skipn 6 df /\
  (forall i r,
     nth_error out i = Some r ->
     ProcessData.precip_7day r =
       Some (Np.sum (map ProcessData.precipitation_mm
                       (firstn 7 (skipn i df))) / 7) /\
     ProcessData.temp_7day r =
       Some (Np.sum (map ProcessData.temperature_c
                       (firstn 7 (skipn i df))) / 7)).
Proof.
  cbn [ProcessData.script ProcessData.split fst].
  assert (Hlen : length (ProcessData.dropna (ProcessData.add_features df))
                 = (length df - 6)%nat).
  { destruct df as [| d df']; [reflexivity |].
    rewrite (@processed_table d (d :: df')).
    now rewrite length_map, length_seq. }
  split; [exact Hlen |]. split.
  - apply nth_error_ext. intros i.
    rewrite nth_error_map, nth_error_skipn.
    replace (6 + i)%nat with (i + 6)%nat by lia.
    destruct (nth_error (ProcessData.dropna (ProcessData.add_features df)) i)
      as [r |] eqn:Hr; cbn [option_map].
    + destruct (@processed_row df i r Hr) as (Hb & _). now rewrite Hb.
    + apply nth_error_None in Hr. rewrite Hlen in Hr.
      symmetry. apply nth_error_None. lia.
  - intros i r Hr. destruct (@processed_row df i r Hr) as (_ & Hp & Ht).
    split; assumption.
Qed.

Lemma processed_rows_witness :
  let df := map (fun i => ProcessData.mkraw (Z.of_nat i) 1000 (INR i) 20)
                (seq 0 8) in
  length (fst (fst (ProcessData.script df))) = 2%nat /\
  map ProcessData.base (fst (fst (ProcessData.script df))) = skipn 6 df.
Proof.
  intros df.
  destruct (@processed_rows df) as (Hlen & Hbase & _).
  split; [exact Hlen | exact Hbase].
Defined.

Lemma geb_negb_ltb (x y : Z) : (x >=? y)%Z = negb (x <? y)%Z.
Proof.
  rewrite Z.geb_leb. destruct (Z.leb_spec y x); destruct (Z.ltb_spec x y);
    try reflexivity; lia.
Qed.

(** X26: the split loses no day and doubles none: every processed row is
    in exactly one of the two tables, the calibration table holds the days
    before the split date and the validation table the others, and when
    the days are in ascending order the calibration table followed by the
    validation table is the processed table again. *)
Theorem split_partitions (df : list ProcessData.processed) :
  let cal := fst (ProcessData.split df) in
  let val := snd (ProcessData.split df) in
  (length cal + length val = length df)%nat /\
  (forall r, In r df <-> In r cal \/ In r val) /\
  (forall r, In r cal -> In r val -> False) /\
  Forall (fun r => (ProcessData.date (ProcessData.base r)
                    < ProcessData.split_date)%Z) cal /\
  Forall (fun r => (ProcessData.split_date
                    <= ProcessData.date (ProcessData.base r))%Z) val /\
  (StronglySorted
     (fun a b => (ProcessData.date (ProcessData.base a)
                  <= ProcessData.date (ProcessData.base b))%Z) df ->
   cal ++ val = df).
Proof.
  cbn [ProcessData.split fst snd].
  set (before := fun r => (ProcessData.date (ProcessData.base r)
                           <? ProcessData.split_date)%Z).
  set (after := fun r => (ProcessData.date (ProcessData.base r)
                          >=? ProcessData.split_date)%Z).
  assert (Hneg : forall r, after r = negb (before r))
    by (intros r; apply geb_negb_ltb).
  repeat apply conj.
  - rewrite (filter_ext after _ Hneg). apply filter_length.
  - intros r. rewrite !filter_In, Hneg.
    destruct (before r); cbn [negb]; intuition congruence.
  - intros r Hc Hv. apply filter_In in Hc. apply filter_In in Hv.
    rewrite Hneg in Hv. destruct Hc as [_ Hc]. destruct Hv as [_ Hv].
    rewrite Hc in Hv. discriminate.
  - apply Forall_forall. intros r Hr. apply filter_In in Hr.
    destruct Hr as [_ Hr]. unfold before in Hr. now apply Z.ltb_lt.
  - apply Forall_forall. intros r Hr. apply filter_In in Hr.
    destruct Hr as [_ Hr]. unfold after in Hr. rewrite Z.geb_leb in Hr.
    now apply Z.leb_le.
  - intros Hsorted. induction Hsorted as [| h l Hl IH Hh]; [reflexivity |].
    cbn [filter]. rewrite Hneg.
    destruct (before h) eqn:Hbh; cbn [negb app].
    + now rewrite IH.
    + assert (Hlate : forall r, In r l -> before r = false).
      { intros r Hr. rewrite Forall_forall in Hh. specialize (Hh r Hr).
        unfold before in *. apply Z.ltb_ge in Hbh. apply Z.ltb_ge. lia. }
      rewrite (filter_none before l Hlate). cbn [app]. f_equal.
      apply filter_all. intros r Hr. rewrite Hneg, (Hlate r Hr). reflexivity.
Qed.

Lemma split_partitions_witness :
  let row d :=
    ProcessData.mkprocessed (ProcessData.mkraw d 1000 0 20) (Some 0) (Some 20) in
  ProcessData.split [row 2555%Z; row 2556%Z; row 2557%Z]
  = ([row 2555%Z], [row 2556%Z; row 2557%Z]) /\
  fst (ProcessData.split [row 2555%Z; row 2556%Z; row 2557%Z])
  ++ snd (ProcessData.split [row 2555%Z; row 2556%Z; row 2557%Z])
  = [row 2555%Z; row 2556%Z; row 2557%Z].
Proof.
  intros row. split; [reflexivity |].
  destruct (@split_partitions [row 2555%Z; row 2556%Z; row 2557%Z])
    as (_ & _ & _ & _ & _ & Happ).
  apply Happ.
  repeat constructor; cbn; lia.
Defined.

Lemma sum_bounds (lo hi : R) (l : list R) :
  Forall (fun x => lo <= x <= hi) l ->
  INR (length l) * lo <= Np.sum l <= INR (length l) * hi.
Proof.
  induction 1 as [| x l Hx Hl IH]; [simpl; lra |].
  change (Np.sum (x :: l)) with (x + Np.sum l).
  change (length (x :: l)) with (Datatypes.S (length l)).
  rewrite S_INR. lra.
Qed.

Lemma Forall_firstn_skipn {A : Type} (P : A -> Prop) (l : list A) (i k : nat) :
  Forall P l -> Forall P (firstn k (skipn i l)).
Proof.
  intros Hall. apply Forall_forall. intros x Hx.
  rewrite Forall_forall in Hall. apply Hall.
  apply In_nth_error in Hx. destruct Hx as [j Hj].
  rewrite nth_error_firstn in Hj.
  destruct (j <? k)%nat; [| discriminate].
  rewrite nth_error_skipn in Hj. now apply nth_error_In in Hj.
Qed.

(** X27: a rolling mean stays within the range of the data: if every raw
    precipitation value lies between [lo] and [hi], so does the seven-day
    mean of every processed row. *)
Theorem rolling_mean_within_range (lo hi : R) (df : list ProcessData.raw) :
  Forall (fun r => lo <= ProcessData.precipitation_mm r <= hi) df ->
  Forall (fun r =>
            exists m, ProcessData.precip_7day r = Some m /\ lo <= m <= hi)
         (ProcessData.dropna (ProcessData.add_features df)).
Proof.
  intros Hrange. apply Forall_forall. intros r Hr.
  apply In_nth_error in Hr. destruct Hr as [i Hi].
  assert (Hlen : (i + 6 < length df)%nat).
  { destruct (@processed_row df i r Hi) as (Hb & _).
    apply nth_error_Some. rewrite Hb. discriminate. }
  destruct (@processed_row df i r Hi) as (_ & Hp & _).
  eexists. split; [exact Hp |].
  assert (Hw : Forall (fun x => lo <= x <= hi)
                 (map ProcessData.precipitation_mm (firstn 7 (skipn i df)))).
  { apply Forall_map. now apply Forall_firstn_skipn. }
  apply sum_bounds in Hw.
  rewrite length_map, length_firstn, length_skipn in Hw.
  replace (Nat.min 7 (length df - i)) with 7%nat in Hw by lia.
  simpl INR in Hw. lra.
Qed.

Lemma rolling_mean_within_range_witness :
  Forall (fun r =>
            exists m, ProcessData.precip_7day r = Some m /\ 0 <= m <= 100)
         (ProcessData.dropna
            (ProcessData.add_features
               (map (fun i => ProcessData.mkraw (Z.of_nat i) 1000 5 20)
                    (seq 0 8)))).
Proof.
  apply (@rolling_mean_within_range 0 100).
  apply Forall_forall. intros r Hr. apply in_map_iff in Hr.
  destruct Hr as (i & <- & _). cbn. lra.
Defined.

(** * The efficiency score on degenerate series *)



Lemma nse_self_residuals (x : list R) :
  Np.binop Rminus x x = Ok (Np.map2 Rminus x x) /\
  Np.sum (square (Np.map2 Rminus x x)) = 0.
Proof.
  split; [now apply binop_same_length |].
  apply sum_square_all_zero. now apply residuals_zero_iff.
Qed.





(** X17: for two series of the same positive length the root mean square
    error is a finite number, never negative, and it is 0 when the series
    are equal. *)
Theorem rmse_nonneg_and_zero_on_equal (obs sim : list R) :
  obs <> [] -> length sim = length obs ->
  exists v,
    Validate.rmse obs sim = Ok (Fin v) /\
    0 <= v /\
    (sim = obs -> v = 0).
Proof.
  intros Hne Hlen.
  destruct (@rmse_value obs sim Hne Hlen) as [Hval Hq].
  eexists. split; [exact Hval |]. split; [apply sqrt_pos |].
  intros ->.
  destruct (nse_self_residuals obs) as [_ Hsum].
  rewrite Hsum. unfold Rdiv. rewrite Rmult_0_l. apply sqrt_0.
Qed.

Lemma rmse_nonneg_and_zero_on_equal_witness :
  (exists v, Validate.rmse [1; 2] [1; 3] = Ok (Fin v) /\ 0 <= v) /\
  Validate.rmse [1; 2] [1; 2] = Ok (Fin 0).
Proof.
  destruct (@rmse_nonneg_and_zero_on_equal [1; 2] [1; 3])
    as (v & Hv & H0 & _); [discriminate | reflexivity |].
  destruct (@rmse_nonneg_and_zero_on_equal [1; 2] [1; 2])
    as (w & Hw & _ & Hz); [discriminate | reflexivity |].
  split; [exists v; auto |].
  rewrite Hw, (Hz eq_refl). reflexivity.
Defined.

(** ** The same computations on binary64 numbers *)

Module B64Facts.

Import PrimFloat.

#[local] Set Warnings "-inexact-float".



(** On ordinary series the efficiency of a series against itself is 1. *)
Lemma nse_self_ordinary :
  B64.calculate_nse [0; 1]%float [0; 1]%float = Ok 1%float /\
  B64.calculate_nse [0.5; 2; 3.25]%float [0.5; 2; 3.25]%float = Ok 1%float.
Proof. split; vm_compute; reflexivity. Qed.

(** A series of three equal values 0.1 has a mean that is rounded away
    from 0.1, so the denominator is not zero: the score is 1 against
    itself and a large negative number against another series. *)
Lemma nse_constant_tenths :
  B64.mean [0.1; 0.1; 0.1]%float = 0.10000000000000002%float /\
  B64.calculate_nse [0.1; 0.1; 0.1]%float [0.1; 0.1; 0.1]%float
  = Ok 1%float /\
  B64.calculate_nse [0.1; 0.1; 0.1]%float [0.1; 0.1; 0.2]%float
  = Ok (-1.7307656195116095e+31)%float.
Proof. repeat split; vm_compute; reflexivity. Qed.

(** The zero-variance series [1; 1], whose mean is exact, scores -inf
    against [1; 2] and nan against itself; nothing is raised. *)
Lemma nse_constant_ones :
  B64.calculate_nse [1; 1]%float [1; 2]%float = Ok neg_infinity /\
  B64.calculate_nse [1; 1]%float [1; 1]%float = Ok nan.
Proof. split; vm_compute; reflexivity. Qed.

End B64Facts.

(** * [run] as a method: what a call does to the object *)

Lemma method_loop (self : GR4J.t) (UH1 UH2 precip evap : list R)
    (ts : list nat) (st : GR4J.state) :
  Obj.loop UH1 UH2 precip evap ts st self
  = (self, GR4J.loop self UH1 UH2 precip evap ts st).
Proof.
  revert st; induction ts as [| t ts IH]; intros st; [reflexivity |].
  cbn [Obj.loop GR4J.loop]. unfold Obj.mbind, Obj.body, Obj.reads.
  destruct (GR4J.body self UH1 UH2 precip evap t st) as [st' | err];
    cbn [bind]; [apply IH | reflexivity].
Qed.

(** A call of the method leaves the object as it found it and returns
    what the loop computes from the fresh state. *)
Lemma method_run (self : GR4J.t) (precip evap : list R) :
  Obj.run precip evap self = (self, run_from_fresh_state self precip evap).
Proof.
  unfold Obj.run, run_from_fresh_state. cbv zeta.
  unfold Obj.mbind at 1. unfold Obj.attr at 1.
  unfold Obj.mbind at 1. unfold Obj.attr at 1.
  unfold Obj.mbind at 1. unfold Obj.lift at 1. rewrite zeros_of_nat.
  unfold Obj.mbind at 1. unfold Obj._compute_unit_hydrographs, Obj.reads.
  destruct (GR4J._compute_unit_hydrographs self) as [[UH1 UH2] | err];
    cbn [bind]; [| reflexivity].
  unfold Obj.mbind at 1. unfold Obj.lift at 1. rewrite zeros_of_nat.
  unfold Obj.mbind at 1. unfold Obj.lift at 1. rewrite zeros_of_nat.
  unfold Obj.mbind. rewrite method_loop.
  destruct (GR4J.loop self UH1 UH2 precip evap (seq 0 (length precip)) _)
    as [st | err]; reflexivity.
Qed.

(** The method and the function [GR4J.run] are the same computation. *)
Lemma method_run_is_run (self : GR4J.t) (precip evap : list R) :
  Obj.run precip evap self = GR4J.run self precip evap.
Proof.
  rewrite method_run. unfold GR4J.run, run_from_fresh_state. f_equal.
  unfold GR4J.run_steps, GR4J.setup. rewrite zeros_of_nat. cbn [bind].
  destruct (GR4J._compute_unit_hydrographs self) as [[UH1 UH2] | err];
    cbn [bind]; [| reflexivity].
  rewrite !zeros_of_nat. reflexivity.
Qed.


(** C10 fails as stated: with the time base X4 = 0 the evapotranspiration
    series [1; 1] is longer than the precipitation series [10], and [run]
    raises [IndexError] instead of returning one discharge. *)
Lemma run_longer_evap_raises_with_empty_kernels :
  (length [10] < length [1; 1])%nat /\
  snd (GR4J.run (GR4J.mk 350 0 90 0) [10] [1; 1]) = Raise IndexError /\
  ~ succeeds (snd (GR4J.run (GR4J.mk 350 0 90 0) [10] [1; 1])).
Proof.
  assert (Hrun : snd (GR4J.run (GR4J.mk 350 0 90 0) [10] [1; 1])
                 = Raise IndexError).
  { unfold GR4J.run, GR4J.run_steps, GR4J.setup. cbn [snd].
    rewrite zeros_of_nat. cbn [bind].
    rewrite compute_unit_hydrographs_empty by (simpl; lra).
    cbn [bind length]. rewrite !zeros_of_nat. cbn [bind repeat].
    cbn [seq GR4J.loop]. unfold GR4J.body.
    cbn [Np.getitem nth_error bind]. reflexivity. }
  split; [simpl; lia |]. split; [exact Hrun |].
  intros [Qs HQs]. rewrite Hrun in HQs. discriminate.
Qed.

(** * The scripts on a table of rows *)




